(** * nvsmi: the parsing-and-query engine of [nvsmi.py]

    A shallow embedding of [src/nvsmi.py] (the wrapper around the
    [nvidia-smi] telemetry command) and the properties of its record
    parser, process enrichment and filter / sort / limit pipeline.

    Layout:
    - [Py]      : the parts of the Python runtime the module relies on
                  (exceptions, binary64 floats and their comparisons with
                  integers, [float(str)], [int(str)], [str.split],
                  [str.strip], [list.sort], [itertools.islice]);
    - [GPU], [GPUProcess] : the two classes;
    - [Nvsmi]   : the module-level functions, in source order;
    - the properties, grouped by component.

    Text is modelled by [string] (8-bit characters): the telemetry output
    is ASCII, and every character outside ASCII is treated as neither a
    digit nor white space. *)

From Stdlib Require Import ZArith String Ascii List Bool Lia.
From Stdlib Require Import Floats.SpecFloat.
From Stdlib Require Import Sorting.Permutation Sorting.Sorted.
From stdpp Require Import base option list gmap strings.

Local Open Scope string_scope.
Local Open Scope Z_scope.
Local Open Scope list_scope.

(* ===================================================================== *)
(** * The Python runtime                                                  *)
(* ===================================================================== *)

Module Py.

(** ** Exceptions and results *)

(** The exceptions the modelled code can raise. *)
Inductive exn : Type :=
  | ValueError
  | IndexError
  | ZeroDivisionError.

(** A Python expression either evaluates to a value or raises. *)
Inductive result (A : Type) : Type :=
  | Ok (a : A)
  | Raise (e : exn).
Arguments Ok {A} a.
Arguments Raise {A} e.

#[global] Instance result_ret : MRet result := fun A a => Ok a.
#[global] Instance result_bind : MBind result := fun A B f r =>
  match r with
  | Ok a => f a
  | Raise e => Raise e
  end.
#[global] Instance result_fmap : FMap result := fun A B f r =>
  match r with
  | Ok a => Ok (f a)
  | Raise e => Raise e
  end.

Definition is_ok {A} (r : result A) : bool :=
  match r with Ok _ => true | Raise _ => false end.

(** The outcome of one [next()] on an iterator: an item, an exception
    that goes through, or the end of the iteration. *)
Inductive next_result (A : Type) : Type :=
  | Yield (a : A)
  | Throw (e : exn)
  | StopIteration.
Arguments Yield {A} a.
Arguments Throw {A} e.
Arguments StopIteration {A}.

(** Evaluating [f] on every element, left to right; the first exception
    aborts the traversal (a comprehension or a consumed generator). *)
Fixpoint mapM {A B} (f : A -> result B) (l : list A) : result (list B) :=
  match l with
  | [] => Ok []
  | x :: l' => y ← f x; ys ← mapM f l'; Ok (y :: ys)
  end.

(** ** binary64 floats *)

Definition prec : Z := 53.
Definition emax : Z := 1024.

(** A Python [float] is an IEEE 754 binary64 number. *)
Definition float : Type := spec_float.

Definition nan : float := S754_nan.
Definition inf : float := S754_infinity false.
Definition neg_inf : float := S754_infinity true.

Definition is_nan (x : float) : bool :=
  match x with S754_nan => true | _ => false end.

Definition is_zero (x : float) : bool :=
  match x with S754_zero _ => true | _ => false end.

(** The members of binary64 among the values of [spec_float]. *)
Definition is_binary64 (x : float) : bool := valid_binary prec emax x.

(** [float(n)] for an integer [n] (below the overflow threshold). *)
Definition float_of_Z (z : Z) : float := binary_normalize prec emax z 0 false.

Definition fmul (x y : float) : float := SFmul prec emax x y.
Definition fdiv (x y : float) : float := SFdiv prec emax x y.

(** [float(x)] for a float [x]. *)
Definition float_of_float (x : float) : float := x.

(** The literals [1.0] and [100] as floats. *)
Definition float_1 : float := S754_finite false 4503599627370496 (-52).
Definition float_100 : float := S754_finite false 7036874417766400 (-46).

(** [x * n] for a float [x] and the int [100]: the int is converted
    (exactly) and the product rounded. *)
Definition float_mul_100 (x : float) : float := fmul x float_100.

(** [x / y] on floats: Python raises on a zero divisor (of either sign,
    whatever the dividend is) and otherwise divides as IEEE 754 does. *)
Definition float_truediv (x y : float) : result float :=
  if is_zero y then Raise ZeroDivisionError else Ok (fdiv x y).

(** ** Numbers and their comparisons *)

(** The numeric values the thresholds can take: [int] or [float]. *)
Inductive number : Type :=
  | Int (z : Z)
  | Float (f : float).

(** Python compares a float with an int exactly, without rounding the
    int. *)
Definition compare_float_Z (x : float) (z : Z) : option comparison :=
  match x with
  | S754_nan => None
  | S754_infinity s => Some (if s then Lt else Gt)
  | S754_zero _ => Some (0 ?= z)
  | S754_finite s m e =>
      let v := cond_Zopp s (Zpos m) in
      Some (if 0 <=? e then (v * 2 ^ e ?= z) else (v ?= z * 2 ^ (- e)))
  end.

Definition num_compare (a b : number) : option comparison :=
  match a, b with
  | Int x, Int y => Some (x ?= y)
  | Float x, Float y => SFcompare x y
  | Float x, Int y => compare_float_Z x y
  | Int x, Float y => CompOpp <$> compare_float_Z y x
  end.

(** [a < b], [a <= b], [a >= b], [a == b]. *)
Definition num_lt (a b : number) : bool :=
  match num_compare a b with Some Lt => true | _ => false end.
Definition num_le (a b : number) : bool :=
  match num_compare a b with Some (Lt | Eq) => true | _ => false end.
Definition num_ge (a b : number) : bool :=
  match num_compare a b with Some (Gt | Eq) => true | _ => false end.
Definition num_eq (a b : number) : bool :=
  match num_compare a b with Some Eq => true | _ => false end.

Definition float_lt (x y : float) : bool := num_lt (Float x) (Float y).
Definition float_eq (x y : float) : bool := num_eq (Float x) (Float y).

(** ** Characters *)

Definition code (c : ascii) : Z := Z.of_nat (nat_of_ascii c).

(** C's [isspace] in the C locale ([Py_ISSPACE]). *)
Definition is_c_space (c : ascii) : bool :=
  ((9 <=? code c) && (code c <=? 13)) || (code c =? 32).

(** [str.isspace] on the ASCII range: C's white space and the four
    separators 0x1C..0x1F. *)
Definition is_py_space (c : ascii) : bool :=
  is_c_space c || ((28 <=? code c) && (code c <=? 31)).

Definition is_digit (c : ascii) : bool :=
  (48 <=? code c) && (code c <=? 57).

Definition digit_value (c : ascii) : Z := code c - 48.

Definition lower (c : ascii) : ascii :=
  if (65 <=? code c) && (code c <=? 90)
  then ascii_of_nat (nat_of_ascii c + 32) else c.

(** ** Scanning helpers on character lists *)

Fixpoint lstrip_with (sp : ascii -> bool) (s : list ascii) : list ascii :=
  match s with
  | c :: s' => if sp c then lstrip_with sp s' else s
  | [] => []
  end.

Definition strip_with (sp : ascii -> bool) (s : list ascii) : list ascii :=
  rev (lstrip_with sp (rev (lstrip_with sp s))).

(** The longest prefix of digits, and the rest. *)
Fixpoint span_digits (s : list ascii) : list ascii * list ascii :=
  match s with
  | c :: s' =>
      if is_digit c
      then let '(ds, r) := span_digits s' in (c :: ds, r)
      else ([], s)
  | [] => ([], [])
  end.

Definition digits_to_Z (ds : list ascii) : Z :=
  fold_left (fun acc c => 10 * acc + digit_value c) ds 0.

(** An optional sign: [true] for a minus. *)
Definition parse_sign (s : list ascii) : bool * list ascii :=
  match s with
  | "-"%char :: r => (true, r)
  | "+"%char :: r => (false, r)
  | _ => (false, s)
  end.

(** Underscores in numeric literals (PEP 515) for [float(str)]: each must
    stand between two digits; they are removed before the literal is
    read. [prev] is the previous character, if any. *)
Fixpoint remove_underscores (prev : option ascii) (s : list ascii)
  : option (list ascii) :=
  match s with
  | [] =>
      match prev with
      | Some "_"%char => None
      | _ => Some []
      end
  | c :: s' =>
      if Ascii.eqb c "_" then
        match prev with
        | Some p => if is_digit p then remove_underscores (Some c) s' else None
        | None => None
        end
      else
        match prev with
        | Some "_"%char =>
            if is_digit c then cons c <$> remove_underscores (Some c) s' else None
        | _ => cons c <$> remove_underscores (Some c) s'
        end
  end.

(** ** [float(str)] *)

(** The value [(-1)^neg * digits * 10^e10], rounded to the nearest
    binary64 number, ties to even; too large a value gives an infinity. *)
Definition float_of_decimal (neg : bool) (digits e10 : Z) : float :=
  match digits with
  | Z0 => S754_zero neg
  | Zpos d =>
      if 0 <=? e10
      then binary_round prec emax neg (d * Z.to_pos (10 ^ e10)) 0
      else
        let '(q, e, l) :=
          SFdiv_core_binary prec emax (Zpos d) 0 (10 ^ (- e10)) 0 in
        binary_round_aux prec emax neg q e l
  | Zneg _ => nan
  end.

(** A decimal literal without its sign: digits with an optional fraction
    (at least one digit in all) and an optional exponent; an ["e"] that no
    digit follows is not part of the literal. The result is the digit
    string read as an integer, the decimal exponent, and the unread rest. *)
Definition parse_decimal (s : list ascii) : option (Z * Z * list ascii) :=
  let '(ip, r1) := span_digits s in
  let '(fp, r2) :=
    match r1 with
    | "."%char :: r => span_digits r
    | _ => ([], r1)
    end in
  match ip ++ fp with
  | [] => None
  | ds =>
      let '(ex, r3) :=
        match r2 with
        | c :: r =>
            if Ascii.eqb (lower c) "e" then
              let '(es, r') := parse_sign r in
              let '(ed, r'') := span_digits r' in
              match ed with
              | [] => (0, r2)
              | _ => (cond_Zopp es (digits_to_Z ed), r'')
              end
            else (0, r2)
        | [] => (0, r2)
        end in
      Some (digits_to_Z ds, ex - Z.of_nat (length fp), r3)
  end.

(** ["inf"], ["infinity"] and ["nan"], in any letter case. *)
Definition parse_inf_or_nan (neg : bool) (s : list ascii) : option float :=
  let w := string_of_list_ascii (map lower s) in
  if String.eqb w "inf" || String.eqb w "infinity" then Some (S754_infinity neg)
  else if String.eqb w "nan" then Some nan
  else None.

(** [float(s)] for a string [s]: white space around the literal is
    dropped, and the whole of what remains must be a literal; anything
    else raises [ValueError]. *)
Definition float_of_str (s : string) : result float :=
  match strip_with is_c_space (list_ascii_of_string s) with
  | [] => Raise ValueError
  | cs =>
      match remove_underscores None cs with
      | None => Raise ValueError
      | Some lit =>
          let '(neg, body) := parse_sign lit in
          match parse_decimal body with
          | Some (d, e, []) => Ok (float_of_decimal neg d e)
          | Some (_, _, _ :: _) => Raise ValueError
          | None =>
              match parse_inf_or_nan neg body with
              | Some x => Ok x
              | None => Raise ValueError
              end
          end
      end
  end.

(** ** [int(str)] *)

(** Digits separated by single underscores, starting and ending with a
    digit. [prev] tells whether the previous character was a digit. *)
Fixpoint int_digits (prev_digit : bool) (s : list ascii) (acc : Z) : option Z :=
  match s with
  | [] => if prev_digit then Some acc else None
  | c :: s' =>
      if is_digit c then int_digits true s' (10 * acc + digit_value c)
      else if Ascii.eqb c "_" then
        if prev_digit then int_digits false s' acc else None
      else None
  end.

(** [int(s)] in base 10: white space around, an optional sign, digits.
    (The interpreter's cap on the number of digits, 4300 by default from
    version 3.11 on, is left out.) *)
Definition int_of_str (s : string) : result Z :=
  let '(neg, body) := parse_sign (strip_with is_c_space (list_ascii_of_string s)) in
  match int_digits false body 0 with
  | Some n => Ok (cond_Zopp neg n)
  | None => Raise ValueError
  end.

(** ** Strings *)

(** [s.split(sep)] for a non-empty [sep]: the pieces between the
    occurrences of [sep], found from the left and not overlapping. [skip]
    counts the characters of a separator still to pass over and [cur] is
    the piece being read. *)
Fixpoint split_from (sep s : string) (skip : nat) (cur : string) : list string :=
  match s with
  | EmptyString => [cur]
  | String c s' =>
      match skip with
      | S k => split_from sep s' k cur
      | O =>
          if String.prefix sep s
          then cur :: split_from sep s' (String.length sep - 1) ""
          else split_from sep s' 0 (cur +:+ String c "")
      end
  end.

Definition str_split (s sep : string) : list string := split_from sep s 0 "".

(** [s.strip()]. *)
Definition str_strip (s : string) : string :=
  string_of_list_ascii (strip_with is_py_space (list_ascii_of_string s)).

(** Truth value of a string: non-empty. *)
Definition str_bool (s : string) : bool :=
  match s with EmptyString => false | _ => true end.

(** [a < b] on strings: lexicographic, by character code. *)
Definition str_lt (a b : string) : bool :=
  match String.compare a b with Lt => true | _ => false end.

(** [x in l] for a list (or tuple) of strings. *)
Definition str_in (x : string) (l : list string) : bool :=
  existsb (String.eqb x) l.

(** ** Sequences and dictionaries *)

(** The values a dynamically typed attribute holds here: [str] or
    [int]. *)
Inductive value : Type :=
  | VStr (s : string)
  | VInt (z : Z).

(** [d.get(k, dflt)] on a dictionary from strings to strings. *)
Definition dict_get (d : gmap string string) (k : string) (dflt : value) : value :=
  match d !! k with
  | Some v => VStr v
  | None => dflt
  end.

(** [v in l] for a list of strings and a value that is a string or an
    int: an int equals no string. *)
Definition value_in (v : value) (l : list string) : bool :=
  match v with
  | VStr s => str_in s l
  | VInt _ => false
  end.

(** [itertools.compress(data, selectors)], consumed. *)
Fixpoint compress {A} (data : list A) (selectors : list bool) : list A :=
  match data, selectors with
  | d :: data', s :: selectors' =>
      if s then d :: compress data' selectors' else compress data' selectors'
  | _, _ => []
  end.

(** [values[i]] for [0 <= i]. *)
Definition getitem {A} (values : list A) (i : nat) : result A :=
  match values !! i with
  | Some v => Ok v
  | None => Raise IndexError
  end.

(** [list.sort(key=...)]: a stable sort that compares keys with [<] only.
    On keys that [<] orders (a strict weak order: strings, and floats other
    than NaN) every stable sort returns the same list
    ([stable_sorted_unique] below); it is given here by insertion, each
    element going before the first one that is not smaller. [main] sorts
    filtered records only, whose keys are ordered. *)
Section Sort.
Context {A K : Type}.
Variable lt : K -> K -> bool.
Variable key : A -> K.

Fixpoint insert_by (x : A) (l : list A) : list A :=
  match l with
  | [] => [x]
  | y :: l' =>
      if lt (key y) (key x) then y :: insert_by x l' else x :: l
  end.

Fixpoint list_sort (l : list A) : list A :=
  match l with
  | [] => []
  | x :: l' => insert_by x (list_sort l')
  end.
End Sort.

(** [sys.maxsize] on a 64-bit platform. *)
Definition maxsize : Z := 2 ^ 63 - 1.

(** [itertools.islice(iterable, n)] over a list, consumed: the first [n]
    items. The stop argument must lie in [0, sys.maxsize]. *)
Definition islice {A} (l : list A) (n : Z) : result (list A) :=
  if (0 <=? n) && (n <=? maxsize)
  then Ok (firstn (Z.to_nat n) l)
  else Raise ValueError.

End Py.

Import Py.

(* ===================================================================== *)
(** * The classes                                                         *)
(* ===================================================================== *)

Module GPU.

Record t : Type := mk {
  id : string;
  uuid : string;
  gpu_util : float;
  mem_util : float;
  mem_total : float;
  mem_used : float;
  mem_free : float;
  driver : string;
  name : string;
  serial : string;
  display_mode : string;
  display_active : string;
  temperature : float
}.

(** [GPU.__init__], on the argument types [get_gpu] calls it with. The
    division is evaluated before the object is complete: when it raises,
    no record exists. *)
Definition __init__ (id uuid : string)
    (gpu_util mem_total mem_used mem_free : float)
    (driver gpu_name serial display_mode display_active : string)
    (temperature : float) : result t :=
  q ← float_truediv (float_of_float mem_used) (float_of_float mem_total);
  Ok {| id := id;
        uuid := uuid;
        gpu_util := gpu_util;
        mem_util := float_mul_100 q;
        mem_total := mem_total;
        mem_used := mem_used;
        mem_free := mem_free;
        driver := driver;
        name := gpu_name;
        serial := serial;
        display_mode := display_mode;
        display_active := display_active;
        temperature := temperature |}.

End GPU.

Module GPUProcess.

Record t : Type := mk {
  pid : Z;
  process_name : string;
  gpu_id : value;
  gpu_uuid : string;
  gpu_name : string;
  used_memory : float
}.

Definition __init__ (pid : Z) (process_name : string) (gpu_id : value)
    (gpu_uuid gpu_name : string) (used_memory : float) : t :=
  {| pid := pid;
     process_name := process_name;
     gpu_id := gpu_id;
     gpu_uuid := gpu_uuid;
     gpu_name := gpu_name;
     used_memory := used_memory |}.

End GPUProcess.

(* ===================================================================== *)
(** * The module-level functions                                          *)
(* ===================================================================== *)

Module Nvsmi.

(** [os.linesep], on a POSIX system. *)
Definition linesep : string := String (ascii_of_nat 10) "".

Definition to_float_or_inf (value : string) : result float :=
  match float_of_str value with
  | Ok number => Ok number
  | Raise ValueError => Ok nan
  | Raise e => Raise e
  end.

Definition get_gpu (line : string) : result GPU.t :=
  let values := str_split line ", " in
  id ← getitem values 0;
  uuid ← getitem values 1;
  gpu_util ← getitem values 2 ≫= to_float_or_inf;
  mem_total ← getitem values 3 ≫= to_float_or_inf;
  mem_used ← getitem values 4 ≫= to_float_or_inf;
  mem_free ← getitem values 5 ≫= to_float_or_inf;
  driver ← getitem values 6;
  gpu_name ← getitem values 7;
  serial ← getitem values 8;
  display_active ← getitem values 9;
  display_mode ← getitem values 10;
  temp_gpu ← getitem values 11 ≫= to_float_or_inf;
  GPU.__init__ id uuid gpu_util mem_total mem_used mem_free
    driver gpu_name serial display_mode display_active temp_gpu.

(** The non-blank lines of a captured output. *)
Definition record_lines (output : string) : list string :=
  List.filter (fun line => str_bool (str_strip line)) (str_split output linesep).

(** [get_gpus], on the text the GPU query printed. The generator it
    returns is consumed at once by both of its callers. *)
Definition get_gpus (output : string) : result (list GPU.t) :=
  mapM get_gpu (record_lines output).

(** The generator [get_gpus] returns, one [next()] at a time. Its state is
    the list of the lines not read yet. A [next()] passes over the blank
    lines and parses the first line that is not blank: it yields the
    record, or lets the exception of the parser through, after which the
    generator is finished. *)
Fixpoint get_gpus_next (lines : list string)
  : next_result GPU.t * list string :=
  match lines with
  | [] => (StopIteration, [])
  | line :: rest =>
      if str_bool (str_strip line) then
        match get_gpu line with
        | Ok gpu => (Yield gpu, rest)
        | Raise e => (Throw e, [])
        end
      else get_gpus_next rest
  end.

Definition get_gpu_proc (line : string) (gpu_uuid_to_id_map : gmap string string)
  : result GPUProcess.t :=
  let values := str_split line ", " in
  pid ← getitem values 0 ≫= int_of_str;
  process_name ← getitem values 1;
  gpu_uuid ← getitem values 2;
  gpu_name ← getitem values 3;
  used_memory ← getitem values 4 ≫= to_float_or_inf;
  let gpu_id := dict_get gpu_uuid_to_id_map gpu_uuid (VInt (-1)) in
  Ok (GPUProcess.__init__ pid process_name gpu_id gpu_uuid gpu_name used_memory).

Definition is_gpu_available (gpu : GPU.t)
    (gpu_util_max mem_util_max mem_free_min : number)
    (exclude_ids exclude_uuids : list string) : bool :=
  true
  && num_le (Float (GPU.gpu_util gpu)) gpu_util_max
  && num_le (Float (GPU.mem_util gpu)) mem_util_max
  && num_ge (Float (GPU.mem_free gpu)) mem_free_min
  && negb (str_in (GPU.id gpu) exclude_ids)
  && negb (str_in (GPU.uuid gpu) exclude_uuids).

(** [x or tuple()] for an optional list. *)
Definition or_tuple (x : option (list string)) : list string :=
  match x with
  | Some (y :: l) => y :: l
  | _ => []
  end.

(** [get_available_gpus], on the text the GPU query printed; an argument
    left out is [None] here and takes the default of the signature. The
    iterator it returns is given as the list of its items. *)
Definition get_available_gpus (output : string)
    (gpu_util_max mem_util_max mem_free_min : option number)
    (exclude_ids exclude_uuids : option (list string)) : result (list GPU.t) :=
  let gpu_util_max := default (Float float_1) gpu_util_max in
  let mem_util_max := default (Float float_1) mem_util_max in
  let mem_free_min := default (Int 0) mem_free_min in
  let exclude_ids := or_tuple exclude_ids in
  let exclude_uuids := or_tuple exclude_uuids in
  gpus ← get_gpus output;
  let selectors :=
    map (fun gpu => is_gpu_available gpu gpu_util_max mem_util_max
                      mem_free_min exclude_ids exclude_uuids) gpus in
  Ok (compress gpus selectors).

Definition _populate_gpu_uuid_to_id_map (output : string)
  : result (gmap string string) :=
  gpus ← get_gpus output;
  Ok (fold_left (fun gpu_map gpu => <[GPU.uuid gpu := GPU.id gpu]> gpu_map) gpus ∅).

(** [get_gpu_processes], on the texts the process query and the GPU query
    printed. The lines are split before the map is built. *)
Definition get_gpu_processes (procs_output gpus_output : string)
  : result (list GPUProcess.t) :=
  let lines := record_lines procs_output in
  gpu_uuid_to_id_map ← _populate_gpu_uuid_to_id_map gpus_output;
  mapM (fun line => get_gpu_proc line gpu_uuid_to_id_map) lines.

(** The [ls] options of [parse_args]. *)
Inductive sort_attr : Type := sort_id | sort_gpu_util | sort_mem_util.

Record ls_args : Type := {
  limit : Z;
  mem_free_min : number;
  mem_util_max : Z;
  gpu_util_max : Z;
  exclude_ids : option (list string);
  exclude_uuids : option (list string);
  sort : sort_attr
}.

(** The values [parse_args] gives the options that are not on the command
    line. *)
Definition ls_defaults : ls_args :=
  {| limit := 999;
     mem_free_min := Int 0;
     mem_util_max := 100;
     gpu_util_max := 100;
     exclude_ids := None;
     exclude_uuids := None;
     sort := sort_id |}.

Definition take {A} (n : Z) (iterable : list A) : result (list A) :=
  islice iterable n.

(** [gpus.sort(key=operator.attrgetter(attr))]. *)
Definition sort_gpus (attr : sort_attr) (gpus : list GPU.t) : list GPU.t :=
  match attr with
  | sort_id => list_sort str_lt GPU.id gpus
  | sort_gpu_util => list_sort float_lt GPU.gpu_util gpus
  | sort_mem_util => list_sort float_lt GPU.mem_util gpus
  end.

(** The [ls] branch of [main]: the records it prints, in order. *)
Definition main_ls (args : ls_args) (output : string) : result (list GPU.t) :=
  gpus ← get_available_gpus output
            (Some (Int (gpu_util_max args)))
            (Some (Int (mem_util_max args)))
            (Some (mem_free_min args))
            (exclude_ids args)
            (exclude_uuids args);
  let gpus := sort_gpus (sort args) gpus in
  take (limit args) gpus.

(** The [ps] options of [parse_args]: each is [None] or a list. *)
Record ps_args : Type := {
  ids : option (list string);
  uuids : option (list string)
}.

(** The other branch of [main]: the process records it prints, in order.
    An option is tested for truth: [None] and the empty list are false. *)
Definition main_ps (args : ps_args) (procs_output gpus_output : string)
  : result (list GPUProcess.t) :=
  processes ← get_gpu_processes procs_output gpus_output;
  match ids args with
  | Some (i :: l) =>
      Ok (List.filter
            (fun proc => value_in (GPUProcess.gpu_id proc) (i :: l))
            processes)
  | _ =>
      match uuids args with
      | Some (u :: l) =>
          Ok (List.filter
                (fun proc => str_in (GPUProcess.gpu_uuid proc) (u :: l))
                processes)
      | _ => Ok processes
      end
  end.

End Nvsmi.

Import Nvsmi.

(* ===================================================================== *)
(** * Vocabulary of the properties                                        *)
(* ===================================================================== *)

(** What coercion yields: the parsed number, or NaN. *)
Definition coerced (token : string) : float :=
  match float_of_str token with
  | Ok number => number
  | Raise _ => nan
  end.

(** No element has a smaller key than the one before it. *)
Fixpoint ascending {A K : Type} (lt : K -> K -> bool) (key : A -> K)
    (l : list A) : Prop :=
  match l with
  | x :: l' =>
      match l' with
      | y :: _ => lt (key y) (key x) = false
      | [] => True
      end /\ ascending lt key l'
  | [] => True
  end.

(** The elements whose key equals [k], in the order of the list. *)
Definition tied {A K : Type} (key : A -> K) (eqv : K -> K -> bool) (k : K)
    (l : list A) : list A :=
  List.filter (fun x => eqv k (key x)) l.

(** The list is in the order of the attribute: no record has a smaller key
    than the one before it. *)
Definition in_order (attr : sort_attr) (l : list GPU.t) : Prop :=
  match attr with
  | sort_id => ascending str_lt GPU.id l
  | sort_gpu_util => ascending float_lt GPU.gpu_util l
  | sort_mem_util => ascending float_lt GPU.mem_util l
  end.

(** No record has a smaller key than any record before it. *)
Definition no_inversion (attr : sort_attr) (l : list GPU.t) : Prop :=
  match attr with
  | sort_id =>
      StronglySorted (fun x y => str_lt (GPU.id y) (GPU.id x) = false) l
  | sort_gpu_util =>
      StronglySorted
        (fun x y => float_lt (GPU.gpu_util y) (GPU.gpu_util x) = false) l
  | sort_mem_util =>
      StronglySorted
        (fun x y => float_lt (GPU.mem_util y) (GPU.mem_util x) = false) l
  end.

(** The records of [l] whose key equals ([==]) that of [g], in the order
    of [l]. *)
Definition with_key_of (attr : sort_attr) (g : GPU.t) (l : list GPU.t)
  : list GPU.t :=
  match attr with
  | sort_id => tied GPU.id String.eqb (GPU.id g) l
  | sort_gpu_util => tied GPU.gpu_util float_eq (GPU.gpu_util g) l
  | sort_mem_util => tied GPU.mem_util float_eq (GPU.mem_util g) l
  end.

(** The outcome of the [next()] number [i] (from 0) on the generator of
    [get_gpus] in the state [lines]. *)
Fixpoint nth_next (i : nat) (lines : list string) : next_result GPU.t :=
  let '(r, rest) := get_gpus_next lines in
  match i with
  | O => r
  | S k => nth_next k rest
  end.

(** The line feed, and a text made of lines, each ended by a line feed. *)
Definition newline : ascii := ascii_of_nat 10.

Definition unlines (lines : list string) : string :=
  fold_right (fun line text => line +:+ linesep +:+ text) "" lines.

Definition no_newline (line : string) : bool :=
  forallb (fun c => negb (Ascii.eqb c newline)) (list_ascii_of_string line).

(** A line made of white space only (or empty). *)
Definition blank (line : string) : bool :=
  forallb is_py_space (list_ascii_of_string line).

(** [sep.join(pieces)]. *)
Fixpoint str_join (sep : string) (pieces : list string) : string :=
  match pieces with
  | [] => ""
  | p :: rest =>
      match rest with
      | [] => p
      | _ :: _ => p +:+ sep +:+ str_join sep rest
      end
  end.

(** A string of decimal digits, and the number it writes. *)
Definition is_digits (s : string) : bool :=
  forallb is_digit (list_ascii_of_string s).

Definition decimal_value (s : string) : Z :=
  digits_to_Z (list_ascii_of_string s).

(** The last GPU of a snapshot that has the UUID [u], if any. *)
Definition last_with_uuid (u : string) (gpus : list GPU.t) : option GPU.t :=
  List.find (fun g => String.eqb (GPU.uuid g) u) (rev gpus).

(** [x < y] on the attribute the sort compares. *)
Definition attr_lt (attr : sort_attr) (x y : GPU.t) : bool :=
  match attr with
  | sort_id => str_lt (GPU.id x) (GPU.id y)
  | sort_gpu_util => float_lt (GPU.gpu_util x) (GPU.gpu_util y)
  | sort_mem_util => float_lt (GPU.mem_util x) (GPU.mem_util y)
  end.

(** [a <= a'] for two bounds of the same type. *)
Definition bound_le (a a' : number) : bool :=
  match a, a' with
  | Int x, Int y => x <=? y
  | Float x, Float y => num_le (Float x) (Float y)
  | _, _ => false
  end.

(** ** Telemetry texts used in the examples *)

(** The example line of the specification, and variants of it. *)
Definition line_example : string :=
  "0, GPU-abc, 5, 8000, 2000, 6000, 450.1, Tesla, SN1, Enabled, Disabled, 60".
Definition line_zero_total : string :=
  "0, GPU-abc, 5, 0, 2000, 6000, 450.1, Tesla, SN1, Enabled, Disabled, 60".
Definition line_zero_total_zero_used : string :=
  "1, GPU-def, 0, 0.0, 0, 0, 450.1, Tesla, SN2, Enabled, Disabled, 35".
Definition line_no_total : string :=
  "0, GPU-abc, 5, [N/A], 2000, 6000, 450.1, Tesla, SN1, Enabled, Disabled, 60".
Definition line_11_fields : string :=
  "0, GPU-abc, 5, 8000, 2000, 6000, 450.1, Tesla, SN1, Enabled, Disabled".
Definition line_13_fields : string :=
  "0, GPU-abc, 5, 8000, 2000, 6000, 450.1, Tesla, SN1, Enabled, Disabled, 60, 250.00".

Definition gpu_example : GPU.t :=
  {| GPU.id := "0";
     GPU.uuid := "GPU-abc";
     GPU.gpu_util := S754_finite false 5629499534213120 (-50);
     GPU.mem_util := S754_finite false 7036874417766400 (-48);
     GPU.mem_total := S754_finite false 8796093022208000 (-40);
     GPU.mem_used := S754_finite false 8796093022208000 (-42);
     GPU.mem_free := S754_finite false 6597069766656000 (-40);
     GPU.driver := "450.1";
     GPU.name := "Tesla";
     GPU.serial := "SN1";
     GPU.display_mode := "Disabled";
     GPU.display_active := "Enabled";
     GPU.temperature := S754_finite false 8444249301319680 (-47) |}.

(** The example of the specification: two GPUs, of which the second is
    too busy. *)
Definition line_busy : string :=
  "1, GPU-def, 90, 8000, 7600, 100, 450.1, Tesla, SN2, Enabled, Disabled, 70".

Definition gpu_busy : GPU.t :=
  {| GPU.id := "1";
     GPU.uuid := "GPU-def";
     GPU.gpu_util := S754_finite false 6333186975989760 (-46);
     GPU.mem_util := S754_finite false 6685030696878080 (-46);
     GPU.mem_total := S754_finite false 8796093022208000 (-40);
     GPU.mem_used := S754_finite false 8356288371097600 (-40);
     GPU.mem_free := S754_finite false 7036874417766400 (-46);
     GPU.driver := "450.1";
     GPU.name := "Tesla";
     GPU.serial := "SN2";
     GPU.display_mode := "Disabled";
     GPU.display_active := "Enabled";
     GPU.temperature := S754_finite false 4925812092436480 (-46) |}.

Definition output_two : string :=
  line_example +:+ linesep +:+ line_busy +:+ linesep.

Definition output_busy_first : string :=
  line_busy +:+ linesep +:+ line_example +:+ linesep.

Definition line_id_2 : string :=
  "2, GPU-abc, 5, 8000, 2000, 6000, 450.1, Tesla, SN1, Enabled, Disabled, 60".
Definition line_id_10 : string :=
  "10, GPU-xyz, 5, 8000, 2000, 6000, 450.1, Tesla, SN9, Enabled, Disabled, 60".

Definition gpu_id_2 : GPU.t :=
  GPU.mk "2" "GPU-abc" (coerced "5") (coerced "25") (coerced "8000")
    (coerced "2000") (coerced "6000") "450.1" "Tesla" "SN1" "Disabled"
    "Enabled" (coerced "60").
Definition gpu_id_10 : GPU.t :=
  GPU.mk "10" "GPU-xyz" (coerced "5") (coerced "25") (coerced "8000")
    (coerced "2000") (coerced "6000") "450.1" "Tesla" "SN9" "Disabled"
    "Enabled" (coerced "60").

Definition line_full : string :=
  "3, GPU-full, 100, 8000, 8000, 0, 450.1, Tesla, SN3, Enabled, Disabled, 80".

Definition gpu_full : GPU.t :=
  GPU.mk "3" "GPU-full" (coerced "100") float_100 (coerced "8000")
    (coerced "8000") (S754_zero false) "450.1" "Tesla" "SN3" "Disabled"
    "Enabled" (coerced "80").

(** Process listings. *)
Definition output_zero_total_second : string :=
  unlines [line_example; line_zero_total_zero_used; line_busy].

Definition procs_example : string :=
  unlines ["1234, python, GPU-abc, Tesla, 512";
           "77, blender, GPU-def, Tesla, 2048";
           "4321, train, GPU-gone, Tesla, [N/A]"].

Definition proc_python : GPUProcess.t :=
  GPUProcess.mk 1234 "python" (VStr "0") "GPU-abc" "Tesla" (coerced "512").
Definition proc_blender : GPUProcess.t :=
  GPUProcess.mk 77 "blender" (VStr "1") "GPU-def" "Tesla" (coerced "2048").
Definition proc_train : GPUProcess.t :=
  GPUProcess.mk 4321 "train" (VInt (-1)) "GPU-gone" "Tesla" nan.

(** ** Tactics *)

(** Case analysis on every comparison of integers in sight. *)
Ltac compare_cases :=
  repeat match goal with
    | H : context [Z.compare ?a ?b] |- _ => destruct (Z.compare_spec a b)
    | |- context [Z.compare ?a ?b] => destruct (Z.compare_spec a b)
    | H : context [Pos.compare ?a ?b] |- _ => destruct (Pos.compare_spec a b)
    | |- context [Pos.compare ?a ?b] => destruct (Pos.compare_spec a b)
    end;
  simpl in *; try congruence; try lia.

Ltac float_cases :=
  unfold float_lt, float_eq, num_lt, num_eq, num_compare, SFcompare;
  intros;
  repeat match goal with
    | x : float |- _ => destruct x
    | x : spec_float |- _ => destruct x
    end;
  repeat match goal with b : bool |- _ => destruct b end;
  simpl in *; try congruence;
  repeat match goal with
    | H : context [Pos.compare_cont Eq ?p ?q] |- _ =>
        change (Pos.compare_cont Eq p q) with (Pos.compare p q) in H
    | |- context [Pos.compare_cont Eq ?p ?q] =>
        change (Pos.compare_cont Eq p q) with (Pos.compare p q)
    end;
  compare_cases.

(** The ten cases of a disjunction of ten equations, each substituted. *)
Ltac ten_cases H :=
  destruct H
    as [-> | [-> | [-> | [-> | [-> | [-> | [-> | [-> | [-> | ->]]]]]]]]].

Ltac num_cases :=
  unfold bound_le, num_le, num_ge, num_compare, compare_float_Z, SFcompare;
  intros;
  repeat match goal with
    | x : number |- _ => destruct x
    | x : float |- _ => destruct x
    | x : spec_float |- _ => destruct x
    end;
  repeat match goal with b : bool |- _ => destruct b end;
  simpl in *; try congruence;
  repeat match goal with
    | H : context [Pos.compare_cont Eq ?p ?q] |- _ =>
        change (Pos.compare_cont Eq p q) with (Pos.compare p q) in H
    | |- context [Pos.compare_cont Eq ?p ?q] =>
        change (Pos.compare_cont Eq p q) with (Pos.compare p q)
    end;
  compare_cases.

(* ===================================================================== *)
(** * Properties                                                          *)
(* ===================================================================== *)

(** ** Field coercion *)

(** [float(str)] raises nothing but [ValueError]. *)
Lemma float_of_str_raises (s : string) (e : exn) :
  float_of_str s = Raise e -> e = ValueError.
Proof.
  unfold float_of_str. intros H.
  repeat case_match; congruence.
Qed.

Lemma to_float_or_inf_coerced (token : string) :
  to_float_or_inf token = Ok (coerced token).
Proof.
  unfold to_float_or_inf, coerced.
  destruct (float_of_str token) as [x|e] eqn:E; [reflexivity|].
  apply float_of_str_raises in E. subst e. reflexivity.
Qed.

Lemma nan_le (v : number) : num_le (Float nan) v = false.
Proof. destruct v; reflexivity. Qed.

Lemma nan_ge (v : number) : num_ge (Float nan) v = false.
Proof. destruct v; reflexivity. Qed.

Lemma le_nan (v : number) : num_le v (Float nan) = false.
Proof. destruct v as [z|[]]; reflexivity. Qed.

Lemma ge_nan (v : number) : num_ge v (Float nan) = false.
Proof. destruct v as [z|[]]; reflexivity. Qed.

(** A float that passes a [<=] or a [>=] test is not NaN. *)
Lemma num_le_not_nan (x : float) (v : number) :
  num_le (Float x) v = true -> is_nan x = false.
Proof. destruct x; try reflexivity. rewrite nan_le. discriminate. Qed.

Lemma num_ge_not_nan (x : float) (v : number) :
  num_ge (Float x) v = true -> is_nan x = false.
Proof. destruct x; try reflexivity. rewrite nan_ge. discriminate. Qed.

(** The placeholders of the telemetry tool are not numbers. *)
Example coerce_placeholders :
  to_float_or_inf "N/A" = Ok nan /\
  to_float_or_inf "[N/A]" = Ok nan /\
  to_float_or_inf "[Not Supported]" = Ok nan /\
  to_float_or_inf "" = Ok nan.
Proof. repeat split; reflexivity. Qed.

Example coerce_numbers :
  to_float_or_inf "5" = Ok (S754_finite false 5629499534213120 (-50)) /\
  to_float_or_inf "450.1" = Ok (S754_finite false 7918242938591642 (-44)) /\
  to_float_or_inf "1.0" = Ok float_1 /\
  to_float_or_inf "100" = Ok float_100 /\
  to_float_or_inf " 1e2 " = Ok float_100 /\
  to_float_or_inf "nan" = Ok nan /\
  to_float_or_inf "-inf" = Ok neg_inf.
Proof. repeat split; reflexivity. Qed.

(** C6: for every text token, field coercion returns the parsed number when
    the token is a valid number and the not-a-number sentinel otherwise; it
    never raises; and the sentinel fails every [<=] and [>=] comparison,
    on either side, against any int or float. *)
Theorem C6_coercion_total_and_nan_compares_false :
  forall token : string,
    (exists x, to_float_or_inf token = Ok x /\
       match float_of_str token with
       | Ok number => x = number
       | Raise _ => x = nan
       end) /\
    (forall v : number,
       num_le (Float nan) v = false /\ num_ge (Float nan) v = false /\
       num_le v (Float nan) = false /\ num_ge v (Float nan) = false).
Proof.
  intros token. split.
  - exists (coerced token). split; [apply to_float_or_inf_coerced|].
    unfold coerced. destruct (float_of_str token); reflexivity.
  - intros v. auto using nan_le, nan_ge, le_nan, ge_nan.
Qed.

(** ** The GPU line parser *)

(** The record of a line of at least 12 fields is built by the
    constructor from the first 12, five of them coerced. *)
Lemma get_gpu_fields (line : string)
    (v0 v1 v2 v3 v4 v5 v6 v7 v8 v9 v10 v11 : string) (rest : list string) :
  str_split line ", " = v0 :: v1 :: v2 :: v3 :: v4 :: v5 :: v6 :: v7 :: v8
                          :: v9 :: v10 :: v11 :: rest ->
  get_gpu line =
    GPU.__init__ v0 v1 (coerced v2) (coerced v3) (coerced v4) (coerced v5)
      v6 v7 v8 v10 v9 (coerced v11).
Proof.
  intros E. unfold get_gpu. rewrite E. cbn [getitem lookup list_lookup].
  cbn [mbind result_bind].
  rewrite !to_float_or_inf_coerced. reflexivity.
Qed.

(** What the constructor does, by the memory total. *)
Lemma GPU_init_spec (id uuid : string) (gu mt mu mf : float)
    (dr gn se dm da : string) (te : float) :
  GPU.__init__ id uuid gu mt mu mf dr gn se dm da te =
    if is_zero mt then Raise ZeroDivisionError
    else Ok (GPU.mk id uuid gu (float_mul_100 (fdiv mu mt)) mt mu mf
               dr gn se dm da te).
Proof.
  unfold GPU.__init__, float_truediv, float_of_float.
  destruct (is_zero mt); reflexivity.
Qed.

(** A list of at least 12 elements, taken apart. *)
Lemma twelve_fields {A} (l : list A) :
  (12 <= length l)%nat ->
  exists v0 v1 v2 v3 v4 v5 v6 v7 v8 v9 v10 v11 rest,
    l = v0 :: v1 :: v2 :: v3 :: v4 :: v5 :: v6 :: v7 :: v8 :: v9 :: v10
          :: v11 :: rest.
Proof.
  intros H.
  do 12 (destruct l as [|? l]; [simpl in H; lia|]).
  repeat eexists.
Qed.

(** With fewer than 12 fields an index is out of range. *)
Lemma get_gpu_short (line : string) :
  (length (str_split line ", ") < 12)%nat -> get_gpu line = Raise IndexError.
Proof.
  intros H. unfold get_gpu.
  destruct (str_split line ", ") as [|v0 l]; [reflexivity|].
  cbn [getitem lookup list_lookup mbind result_bind].
  do 11 (destruct l as [|? l];
         [cbn [getitem lookup list_lookup mbind result_bind];
          rewrite ?to_float_or_inf_coerced; reflexivity|]).
  simpl in H. lia.
Qed.

(** The example of the specification: utilisation 5.0, total 8000.0, used
    2000.0, free 6000.0, memory utilisation 25.0, temperature 60.0. *)
Example get_gpu_example :
  get_gpu line_example = Ok gpu_example /\
  Ok (GPU.gpu_util gpu_example) = float_of_str "5.0" /\
  Ok (GPU.mem_total gpu_example) = float_of_str "8000.0" /\
  Ok (GPU.mem_used gpu_example) = float_of_str "2000.0" /\
  Ok (GPU.mem_free gpu_example) = float_of_str "6000.0" /\
  Ok (GPU.mem_util gpu_example) = float_of_str "25.0" /\
  Ok (GPU.temperature gpu_example) = float_of_str "60.0".
Proof. repeat split; vm_compute; reflexivity. Qed.

(** A non-numeric total gives a record whose memory utilisation is NaN. *)
Example get_gpu_no_total :
  exists g, get_gpu line_no_total = Ok g /\
            GPU.mem_total g = nan /\ GPU.mem_util g = nan.
Proof. eexists. vm_compute. repeat split. Qed.

(** The numbers of the examples are binary64 numbers, and the constants
    [1.0] and [100] are the conversions of the integers. *)
Example example_floats_are_binary64 :
  float_of_Z 1 = float_1 /\ float_of_Z 100 = float_100 /\
  forallb is_binary64
    [GPU.gpu_util gpu_example; GPU.mem_util gpu_example;
     GPU.mem_total gpu_example; GPU.mem_used gpu_example;
     GPU.mem_free gpu_example; GPU.temperature gpu_example;
     GPU.gpu_util gpu_busy; GPU.mem_util gpu_busy; GPU.mem_used gpu_busy;
     GPU.mem_free gpu_busy; GPU.temperature gpu_busy;
     float_1; float_100] = true.
Proof. repeat split; vm_compute; reflexivity. Qed.

(** Were the division not guarded, IEEE 754 would give an infinity for a
    non-zero amount over a zero total, and NaN only for zero over zero. *)
Example unguarded_division_by_zero :
  float_mul_100 (fdiv (coerced "2000") (coerced "0")) = inf /\
  float_mul_100 (fdiv (coerced "0") (coerced "0")) = nan /\
  float_truediv (coerced "2000") (coerced "0") = Raise ZeroDivisionError /\
  float_truediv (coerced "N/A") (coerced "-0.0") = Raise ZeroDivisionError.
Proof. repeat split; vm_compute; reflexivity. Qed.

(** The constructor raises on a zero total, whatever the other arguments. *)
Lemma GPU_init_zero_total (id uuid : string) (gu mt mu mf : float)
    (dr gn se dm da : string) (te : float) :
  is_zero mt = true ->
  GPU.__init__ id uuid gu mt mu mf dr gn se dm da te = Raise ZeroDivisionError.
Proof. intros H. rewrite GPU_init_spec, H. reflexivity. Qed.

Lemma fdiv_nan_r (x : float) : fdiv x nan = nan.
Proof. destruct x; reflexivity. Qed.

(** C1, in the form that holds of the code: for every GPU record constructed from a parsed line,
    the memory total and the memory used are the coerced fields 3 and 4,
    the total is not zero, the memory utilisation is [used / total * 100]
    computed from them, and it is NaN whenever the total is NaN, which it
    is when field 3 is not a number. *)
Theorem C1_mem_util_recomputed :
  forall (line : string) (g : GPU.t),
    get_gpu line = Ok g ->
    (exists total_token used_token : string,
        str_split line ", " !! 3%nat = Some total_token /\
        str_split line ", " !! 4%nat = Some used_token /\
        to_float_or_inf total_token = Ok (GPU.mem_total g) /\
        to_float_or_inf used_token = Ok (GPU.mem_used g) /\
        (float_of_str total_token = Raise ValueError ->
         is_nan (GPU.mem_util g) = true)) /\
    is_zero (GPU.mem_total g) = false /\
    GPU.mem_util g =
      float_mul_100 (fdiv (GPU.mem_used g) (GPU.mem_total g)) /\
    (is_nan (GPU.mem_total g) = true -> is_nan (GPU.mem_util g) = true).
Proof.
  intros line g Hg.
  destruct (Nat.lt_ge_cases (length (str_split line ", ")) 12) as [Hs|Hl].
  { rewrite (get_gpu_short line Hs) in Hg. discriminate. }
  destruct (twelve_fields _ Hl)
    as (v0 & v1 & v2 & v3 & v4 & v5 & v6 & v7 & v8 & v9 & v10 & v11 & rest & E).
  rewrite (get_gpu_fields line _ _ _ _ _ _ _ _ _ _ _ _ _ E), GPU_init_spec in Hg.
  destruct (is_zero (coerced v3)) eqn:Z; [discriminate|].
  injection Hg as <-. cbn [GPU.mem_total GPU.mem_used GPU.mem_util].
  assert (Hnan : is_nan (coerced v3) = true ->
                 is_nan (float_mul_100 (fdiv (coerced v4) (coerced v3))) = true).
  { destruct (coerced v3); try discriminate. intros _.
    change S754_nan with nan. rewrite fdiv_nan_r. reflexivity. }
  split; [|auto].
  exists v3, v4. rewrite E, !to_float_or_inf_coerced. repeat split.
  intros V. apply Hnan. unfold coerced. rewrite V. reflexivity.
Qed.

Lemma C1_mem_util_recomputed_witness :
  (exists total_token used_token : string,
      str_split line_no_total ", " !! 3%nat = Some total_token /\
      str_split line_no_total ", " !! 4%nat = Some used_token /\
      to_float_or_inf total_token =
        Ok (GPU.mem_total (GPU.mk "0" "GPU-abc" (coerced "5") nan nan
              (coerced "2000") (coerced "6000") "450.1" "Tesla" "SN1"
              "Disabled" "Enabled" (coerced "60"))) /\
      to_float_or_inf used_token = Ok (coerced "2000") /\
      (float_of_str total_token = Raise ValueError -> is_nan nan = true)) /\
  is_zero nan = false /\
  nan = float_mul_100 (fdiv (coerced "2000") nan) /\
  (is_nan nan = true -> is_nan nan = true).
Proof.
  apply (C1_mem_util_recomputed line_no_total
           (GPU.mk "0" "GPU-abc" (coerced "5") nan nan (coerced "2000")
              (coerced "6000") "450.1" "Tesla" "SN1" "Disabled" "Enabled"
              (coerced "60"))).
  vm_compute. reflexivity.
Defined.

(** C1, where it fails as written: a line whose memory total is [0] yields no
    record at all (the division raises), so none with a NaN memory
    utilisation. *)
Lemma C1_zero_total_builds_no_record :
  (getitem (str_split line_zero_total ", ") 3 ≫= to_float_or_inf)
    = Ok (S754_zero false) /\
  get_gpu line_zero_total = Raise ZeroDivisionError /\
  ~ (exists g, get_gpu line_zero_total = Ok g /\
               is_nan (GPU.mem_util g) = true).
Proof.
  split; [reflexivity|]. split; [reflexivity|].
  intros (g & Hg & _). vm_compute in Hg. discriminate.
Qed.

(** C2, in the form that holds of the code: parsing a 12-field line never fails on an index or on
    a field that is not a number; it returns a record exactly when the
    coerced memory total is not zero and raises [ZeroDivisionError] when it
    is; and the same line gives the same outcome. *)
Theorem C2_get_gpu_total_unless_zero_total :
  forall line : string,
    length (str_split line ", ") = 12%nat ->
    exists total : float,
      (getitem (str_split line ", ") 3 ≫= to_float_or_inf) = Ok total /\
      (is_zero total = true -> get_gpu line = Raise ZeroDivisionError) /\
      (is_zero total = false -> exists g, get_gpu line = Ok g) /\
      (forall line' : string, line' = line -> get_gpu line' = get_gpu line).
Proof.
  intros line H.
  destruct (twelve_fields (str_split line ", "))
    as (v0 & v1 & v2 & v3 & v4 & v5 & v6 & v7 & v8 & v9 & v10 & v11 & rest & E);
    [lia|].
  exists (coerced v3).
  rewrite (get_gpu_fields line _ _ _ _ _ _ _ _ _ _ _ _ _ E), GPU_init_spec, E.
  cbn [getitem lookup list_lookup mbind result_bind].
  rewrite to_float_or_inf_coerced.
  split; [reflexivity|].
  split; [intros ->; reflexivity|].
  split; [intros ->; eexists; reflexivity|].
  intros line' ->. rewrite (get_gpu_fields line _ _ _ _ _ _ _ _ _ _ _ _ _ E).
  apply GPU_init_spec.
Qed.

Lemma C2_get_gpu_total_unless_zero_total_witness :
  exists total : float,
    (getitem (str_split line_example ", ") 3 ≫= to_float_or_inf) = Ok total /\
    (is_zero total = true -> get_gpu line_example = Raise ZeroDivisionError) /\
    (is_zero total = false -> exists g, get_gpu line_example = Ok g) /\
    (forall line' : string,
       line' = line_example -> get_gpu line' = get_gpu line_example).
Proof.
  apply (C2_get_gpu_total_unless_zero_total line_example).
  vm_compute. reflexivity.
Defined.

(** C2, where it fails as written: a valid 12-field line with a zero memory
    total makes the parser raise. *)
Lemma C2_zero_total_line_raises :
  length (str_split line_zero_total_zero_used ", ") = 12%nat /\
  get_gpu line_zero_total_zero_used = Raise ZeroDivisionError /\
  ~ (exists g, get_gpu line_zero_total_zero_used = Ok g).
Proof.
  split; [reflexivity|]. split; [reflexivity|].
  intros (g & Hg). vm_compute in Hg. discriminate.
Qed.

(** C4, in the form that holds of the code: a line of fewer than 12 fields makes the parser raise
    [IndexError]; a line of more than 12 fields never does: its outcome is
    that of any line with the same first 12 fields, the others being
    ignored. *)
Theorem C4_field_count_mismatch :
  forall line : string,
    length (str_split line ", ") <> 12%nat ->
    ((length (str_split line ", ") < 12)%nat /\
     get_gpu line = Raise IndexError) \/
    ((length (str_split line ", ") > 12)%nat /\
     get_gpu line <> Raise IndexError /\
     forall line' : string,
       firstn 12 (str_split line' ", ") = firstn 12 (str_split line ", ") ->
       get_gpu line' = get_gpu line).
Proof.
  intros line H.
  destruct (Nat.lt_ge_cases (length (str_split line ", ")) 12) as [Hs|Hl].
  { left. split; [exact Hs|apply get_gpu_short, Hs]. }
  right. split; [lia|].
  destruct (twelve_fields _ Hl)
    as (v0 & v1 & v2 & v3 & v4 & v5 & v6 & v7 & v8 & v9 & v10 & v11 & rest & E).
  rewrite (get_gpu_fields line _ _ _ _ _ _ _ _ _ _ _ _ _ E), GPU_init_spec.
  split; [destruct (is_zero (coerced v3)); discriminate|].
  intros line' E'. rewrite E in E'. cbn [firstn] in E'.
  destruct (twelve_fields (str_split line' ", "))
    as (w0 & w1 & w2 & w3 & w4 & w5 & w6 & w7 & w8 & w9 & w10 & w11 & rest' & F).
  { assert (L : length (firstn 12 (str_split line' ", ")) = 12%nat)
      by (rewrite E'; reflexivity).
    rewrite length_firstn in L. lia. }
  rewrite F in E'. cbn [firstn] in E'. injection E' as -> -> -> -> -> -> -> -> -> -> -> ->.
  rewrite (get_gpu_fields line' _ _ _ _ _ _ _ _ _ _ _ _ _ F).
  apply GPU_init_spec.
Qed.

Lemma C4_field_count_mismatch_witness :
  ((length (str_split line_13_fields ", ") < 12)%nat /\
   get_gpu line_13_fields = Raise IndexError) \/
  ((length (str_split line_13_fields ", ") > 12)%nat /\
   get_gpu line_13_fields <> Raise IndexError /\
   forall line' : string,
     firstn 12 (str_split line' ", ") = firstn 12 (str_split line_13_fields ", ") ->
     get_gpu line' = get_gpu line_13_fields).
Proof.
  apply (C4_field_count_mismatch line_13_fields).
  vm_compute. discriminate.
Defined.

(** C4, where it fails as written: a line of 13 fields is parsed without any
    failure, into the record of its first 12 fields. *)
Lemma C4_extra_fields_accepted :
  length (str_split line_13_fields ", ") = 13%nat /\
  get_gpu line_13_fields = Ok gpu_example /\
  ~ (exists e, get_gpu line_13_fields = Raise e).
Proof.
  split; [reflexivity|]. split; [reflexivity|].
  intros (e & He). vm_compute in He. discriminate.
Qed.

Example get_gpu_11_fields : get_gpu line_11_fields = Raise IndexError.
Proof. reflexivity. Qed.

(** ** Comparisons of floats and of strings *)

Lemma float_lt_asym (a b : float) : float_lt a b = true -> float_lt b a = false.
Proof. float_cases. Qed.

(** Two floats of which one is smaller are not both equal to a third. *)
Lemma float_lt_eq (a b k : float) :
  float_lt a b = true -> float_eq k b = true -> float_eq k a = false.
Proof. float_cases. Qed.

(** Apart from NaN, "not smaller" is transitive. *)
Lemma float_ge_trans (a b c : float) :
  is_nan a = false -> is_nan b = false -> is_nan c = false ->
  float_lt b a = false -> float_lt c b = false -> float_lt c a = false.
Proof. float_cases. Qed.

Lemma float_eq_refl (a : float) : is_nan a = false -> float_eq a a = true.
Proof. float_cases. Qed.

Lemma float_trichotomy (a b : float) :
  is_nan a = false -> is_nan b = false ->
  float_eq a b = true \/ float_lt a b = true \/ float_lt b a = true.
Proof. float_cases; auto. Qed.

Lemma str_trichotomy (a b : string) :
  String.eqb a b = true \/ str_lt a b = true \/ str_lt b a = true.
Proof.
  unfold str_lt. rewrite (String.compare_antisym b a).
  destruct (String.compare a b) eqn:E; simpl; auto.
  left. apply String.compare_eq_iff in E. subst. apply String.eqb_refl.
Qed.

Lemma str_lt_asym (a b : string) : str_lt a b = true -> str_lt b a = false.
Proof.
  unfold str_lt. rewrite (String.compare_antisym b a).
  destruct (String.compare a b); simpl; congruence.
Qed.

Lemma str_lt_irrefl (a : string) : str_lt a a = false.
Proof.
  destruct (str_lt a a) eqn:E; [|reflexivity].
  rewrite (str_lt_asym a a E) in E. discriminate.
Qed.

Lemma str_lt_eq (a b k : string) :
  str_lt a b = true -> String.eqb k b = true -> String.eqb k a = false.
Proof.
  intros L E. apply String.eqb_eq in E. subst k.
  destruct (String.eqb b a) eqn:F; [|reflexivity].
  apply String.eqb_eq in F. subst b. rewrite str_lt_irrefl in L. discriminate.
Qed.

Lemma str_ge_trans (a b c : string) :
  str_lt b a = false -> str_lt c b = false -> str_lt c a = false.
Proof.
  unfold str_lt. revert b c.
  induction a as [|x a IH]; intros [|y b] [|z c]; simpl; try congruence.
  unfold Ascii.compare.
  destruct (N.compare_spec (N_of_ascii y) (N_of_ascii x)),
           (N.compare_spec (N_of_ascii z) (N_of_ascii y)),
           (N.compare_spec (N_of_ascii z) (N_of_ascii x));
    try congruence; try lia; eauto.
Qed.

(** ** The stable sort *)

Section SortProperties.
Context {A K : Type}.
Variable lt : K -> K -> bool.
Variable key : A -> K.

Lemma insert_by_head (x y : A) (l : list A) :
  lt (key y) (key x) = false -> insert_by lt key x (y :: l) = x :: y :: l.
Proof. intros H. simpl. rewrite H. reflexivity. Qed.

(** Sorting a list that is in order leaves it as it is. *)
Lemma list_sort_ascending_id (l : list A) :
  ascending lt key l -> list_sort lt key l = l.
Proof.
  induction l as [|x l IH]; [reflexivity|].
  intros [H1 H2]. simpl. rewrite (IH H2).
  destruct l as [|y l]; [reflexivity|]. apply insert_by_head, H1.
Qed.

Lemma insert_by_perm (x : A) (l : list A) :
  Permutation (insert_by lt key x l) (x :: l).
Proof.
  induction l as [|y l IH]; simpl; [reflexivity|].
  destruct (lt (key y) (key x)); [|reflexivity].
  rewrite IH. apply perm_swap.
Qed.

Lemma list_sort_perm (l : list A) : Permutation (list_sort lt key l) l.
Proof.
  induction l as [|x l IH]; simpl; [reflexivity|].
  rewrite insert_by_perm, IH. reflexivity.
Qed.

Section Ascending.
Hypothesis lt_asym : forall a b, lt a b = true -> lt b a = false.

Lemma insert_by_ascending (x : A) (l : list A) :
  ascending lt key l -> ascending lt key (insert_by lt key x l).
Proof.
  induction l as [|y l IH]; simpl; [auto|].
  intros [H1 H2].
  destruct (lt (key y) (key x)) eqn:E.
  - split; [|apply IH, H2].
    destruct l as [|z l]; simpl.
    + apply lt_asym, E.
    + destruct (lt (key z) (key x)); [exact H1|apply lt_asym, E].
  - simpl. auto.
Qed.

Lemma list_sort_ascending (l : list A) : ascending lt key (list_sort lt key l).
Proof.
  induction l as [|x l IH]; simpl; [exact I|].
  apply insert_by_ascending, IH.
Qed.

Lemma list_sort_idempotent (l : list A) :
  list_sort lt key (list_sort lt key l) = list_sort lt key l.
Proof. apply list_sort_ascending_id, list_sort_ascending. Qed.
End Ascending.

Section Strong.
Variable good : K -> Prop.
Hypothesis ge_trans : forall a b c,
  good a -> good b -> good c ->
  lt b a = false -> lt c b = false -> lt c a = false.

(** On keys that are ordered, a list in order has no inversion at
    all. *)
Lemma ascending_strongly (l : list A) :
  Forall (fun x => good (key x)) l ->
  ascending lt key l ->
  StronglySorted (fun x y => lt (key y) (key x) = false) l.
Proof.
  induction l as [|x l IH]; [constructor|].
  intros G [H1 H2]. inversion G as [|? ? Gx Gl]; subst.
  specialize (IH Gl H2). constructor; [exact IH|].
  destruct l as [|y l]; [constructor|].
  inversion IH as [|? ? _ Hy]; subst. constructor; [exact H1|].
  inversion Gl as [|? ? Gy Gl']; subst.
  rewrite Forall_forall in Hy, Gl' |- *.
  intros z Hz. eapply (ge_trans _ (key y)); eauto.
Qed.
End Strong.

Section Stable.
Variable eqv : K -> K -> bool.
Hypothesis lt_eqv : forall a b k,
  lt a b = true -> eqv k b = true -> eqv k a = false.

Lemma tied_insert_by (k : K) (x : A) (l : list A) :
  tied key eqv k (insert_by lt key x l) = tied key eqv k (x :: l).
Proof.
  induction l as [|y l IH]; [reflexivity|].
  simpl. destruct (lt (key y) (key x)) eqn:E; [|reflexivity].
  unfold tied in *. simpl in *. rewrite IH.
  destruct (eqv k (key x)) eqn:Ex; [|reflexivity].
  rewrite (lt_eqv _ _ _ E Ex). reflexivity.
Qed.

(** Stability: elements with equal keys keep their order. *)
Lemma list_sort_stable (k : K) (l : list A) :
  tied key eqv k (list_sort lt key l) = tied key eqv k l.
Proof.
  induction l as [|x l IH]; [reflexivity|].
  simpl. rewrite tied_insert_by. unfold tied in *. simpl.
  rewrite IH. reflexivity.
Qed.
End Stable.

Section Unique.
Variable eqv : K -> K -> bool.
Variable good : K -> Prop.
Hypothesis eqv_refl : forall a, good a -> eqv a a = true.
Hypothesis trichotomy : forall a b,
  good a -> good b -> eqv a b = true \/ lt a b = true \/ lt b a = true.

Lemma tied_cons_inv (k : K) (x : A) (l1 l2 : list A) :
  tied key eqv k (x :: l1) = tied key eqv k (x :: l2) ->
  tied key eqv k l1 = tied key eqv k l2.
Proof.
  unfold tied. simpl. destruct (eqv k (key x)); congruence.
Qed.

Lemma tied_head (x : A) (l : list A) :
  good (key x) ->
  tied key eqv (key x) (x :: l) = x :: tied key eqv (key x) l.
Proof. intros G. unfold tied. simpl. rewrite (eqv_refl _ G). reflexivity. Qed.

Lemma tied_In (k : K) (x : A) (l : list A) :
  In x (tied key eqv k l) -> In x l.
Proof. unfold tied. rewrite filter_In. tauto. Qed.

(** On ordered keys, two lists without inversion in which the elements
    of every key come in the same order are the same list: the outcome of
    a stable sort is determined. *)
Lemma stable_sorted_unique (l1 l2 : list A) :
  Forall (fun x => good (key x)) l1 ->
  Forall (fun x => good (key x)) l2 ->
  StronglySorted (fun x y => lt (key y) (key x) = false) l1 ->
  StronglySorted (fun x y => lt (key y) (key x) = false) l2 ->
  (forall z : A, tied key eqv (key z) l1 = tied key eqv (key z) l2) ->
  l1 = l2.
Proof.
  revert l2. induction l1 as [|x l1 IH]; intros l2 G1 G2 S1 S2 T.
  - destruct l2 as [|y l2]; [reflexivity|].
    inversion G2 as [|? ? Gy _]; subst.
    specialize (T y). rewrite (tied_head y l2 Gy) in T. discriminate T.
  - inversion G1 as [|? ? Gx G1']; subst.
    destruct l2 as [|y l2].
    { specialize (T x). rewrite (tied_head x l1 Gx) in T. discriminate T. }
    inversion G2 as [|? ? Gy G2']; subst.
    inversion S1 as [|? ? S1' F1]; subst.
    inversion S2 as [|? ? S2' F2]; subst.
    assert (E : x = y).
    { destruct (trichotomy _ _ Gx Gy) as [Q|[L|L]].
      - pose proof (T x) as Tx. rewrite (tied_head x l1 Gx) in Tx.
        unfold tied in Tx. simpl in Tx. rewrite Q in Tx. congruence.
      - pose proof (T x) as Tx. rewrite (tied_head x l1 Gx) in Tx.
        assert (I : In x (y :: l2)).
        { apply (tied_In (key x)). rewrite <- Tx. left. reflexivity. }
        destruct I as [I|I]; [congruence|].
        rewrite List.Forall_forall in F2. rewrite (F2 x I) in L. discriminate.
      - pose proof (T y) as Ty. rewrite (tied_head y l2 Gy) in Ty.
        assert (I : In y (x :: l1)).
        { apply (tied_In (key y)). rewrite Ty. left. reflexivity. }
        destruct I as [I|I]; [congruence|].
        rewrite List.Forall_forall in F1. rewrite (F1 y I) in L. discriminate. }
    subst y. f_equal. apply IH; auto.
    intros z. apply (tied_cons_inv _ x), T.
Qed.
End Unique.
End SortProperties.

(** ** Process enrichment *)

Lemma int_of_str_raises (s : string) (e : exn) :
  int_of_str s = Raise e -> e = ValueError.
Proof. unfold int_of_str. intros H. repeat case_match; congruence. Qed.

(** The process record of a line of at least 5 fields whose first field
    is an integer. *)
Lemma get_gpu_proc_fields (line : string) (m : gmap string string)
    (v0 v1 v2 v3 v4 : string) (rest : list string) (pid : Z) :
  str_split line ", " = v0 :: v1 :: v2 :: v3 :: v4 :: rest ->
  int_of_str v0 = Ok pid ->
  get_gpu_proc line m =
    Ok (GPUProcess.mk pid v1 (dict_get m v2 (VInt (-1))) v2 v3 (coerced v4)).
Proof.
  intros E P. unfold get_gpu_proc. rewrite E.
  cbn [getitem lookup list_lookup mbind result_bind]. rewrite P.
  cbn [mbind result_bind]. rewrite to_float_or_inf_coerced. reflexivity.
Qed.

(** [str.split] returns at least one piece. *)
Lemma split_from_nonempty (sep s : string) (skip : nat) (cur : string) :
  split_from sep s skip cur <> [].
Proof.
  revert skip cur. induction s as [|c s IH]; intros skip cur; cbn [split_from].
  - intros H. discriminate H.
  - destruct skip; [|apply IH].
    destruct (String.prefix sep (String c s)); [intros H; discriminate H|apply IH].
Qed.

(** C7: for every raw process line and every UUID-to-index map, the record
    built has the UUID of field 2 and, as GPU index, the map's value at
    that UUID when it is a key and the sentinel -1 when it is not; the
    parser raises only on a first field that is not an integer or on fewer
    than 5 fields, so never because of an absent UUID, and whether it
    raises does not depend on the map. *)
Theorem C7_process_enrichment :
  forall (line : string) (m : gmap string string),
    match get_gpu_proc line m with
    | Ok p =>
        str_split line ", " !! 2%nat = Some (GPUProcess.gpu_uuid p) /\
        match m !! GPUProcess.gpu_uuid p with
        | Some index => GPUProcess.gpu_id p = VStr index
        | None => GPUProcess.gpu_id p = VInt (-1)
        end
    | Raise e =>
        (exists token, str_split line ", " !! 0%nat = Some token /\
                       int_of_str token = Raise ValueError /\
                       e = ValueError) \/
        ((length (str_split line ", ") < 5)%nat /\ e = IndexError)
    end /\
    forall m' : gmap string string,
      is_ok (get_gpu_proc line m') = is_ok (get_gpu_proc line m).
Proof.
  intros line m.
  destruct (str_split line ", ") as [|v0 l] eqn:E.
  { exfalso. exact (split_from_nonempty _ _ _ _ E). }
  destruct (int_of_str v0) as [pid|e] eqn:P.
  - destruct l as [|v1 [|v2 [|v3 [|v4 rest]]]].
    5: { split.
         - rewrite (get_gpu_proc_fields line m _ _ _ _ _ _ _ E P).
           cbn [GPUProcess.gpu_uuid GPUProcess.gpu_id]. split; [reflexivity|].
           unfold dict_get. destruct (m !! v2); reflexivity.
         - intros m'.
           rewrite !(get_gpu_proc_fields line _ _ _ _ _ _ _ _ E P). reflexivity. }
    all: unfold get_gpu_proc; rewrite E;
      cbn [getitem lookup list_lookup mbind result_bind]; rewrite P;
      cbn [mbind result_bind is_ok];
      (split; [right; split; [simpl; lia|reflexivity]|reflexivity]).
  - pose proof (int_of_str_raises _ _ P) as ->.
    unfold get_gpu_proc. rewrite E.
    cbn [getitem lookup list_lookup mbind result_bind]. rewrite P.
    cbn [mbind result_bind is_ok].
    split; [|reflexivity]. left. exists v0. auto.
Qed.

(** The example of the specification. *)
Example get_gpu_proc_example :
  get_gpu_proc "1234, python, GPU-abc, Tesla, 512" {[ "GPU-abc" := "0" ]}
    = Ok (GPUProcess.mk 1234 "python" (VStr "0") "GPU-abc" "Tesla"
            (S754_finite false 4503599627370496 (-43))) /\
  get_gpu_proc "1234, python, GPU-abc, Tesla, 512" ∅
    = Ok (GPUProcess.mk 1234 "python" (VInt (-1)) "GPU-abc" "Tesla"
            (S754_finite false 4503599627370496 (-43))) /\
  get_gpu_proc "python, 1234, GPU-abc, Tesla, 512" ∅ = Raise ValueError /\
  get_gpu_proc "1234, python, GPU-abc, Tesla" ∅ = Raise IndexError.
Proof. repeat split; vm_compute; reflexivity. Qed.

(** ** The availability filter *)

Lemma compress_map {A} (p : A -> bool) (l : list A) :
  compress l (map p l) = List.filter p l.
Proof.
  induction l as [|x l IH]; [reflexivity|].
  simpl. rewrite IH. reflexivity.
Qed.

(** The filter stage: the records that pass [is_gpu_available], in the
    order of the snapshot. *)
Lemma get_available_gpus_filter (output : string)
    (a b c : option number) (d e : option (list string)) (gpus : list GPU.t) :
  get_gpus output = Ok gpus ->
  get_available_gpus output a b c d e =
    Ok (List.filter
          (fun gpu => is_gpu_available gpu (default (Float float_1) a)
                        (default (Float float_1) b) (default (Int 0) c)
                        (or_tuple d) (or_tuple e))
          gpus).
Proof.
  intros H. unfold get_available_gpus. rewrite H.
  cbn [mbind result_bind]. rewrite compress_map. reflexivity.
Qed.

Lemma get_available_gpus_ok (output : string)
    (a b c : option number) (d e : option (list string)) (avail : list GPU.t) :
  get_available_gpus output a b c d e = Ok avail ->
  exists gpus, get_gpus output = Ok gpus.
Proof.
  unfold get_available_gpus. destruct (get_gpus output) as [gpus|ex]; [eauto|].
  discriminate.
Qed.

Lemma str_in_In (x : string) (l : list string) :
  str_in x l = true <-> In x l.
Proof.
  unfold str_in. rewrite existsb_exists. split.
  - intros (y & Hy & E). apply String.eqb_eq in E. subst. exact Hy.
  - intros H. exists x. split; [exact H|apply String.eqb_refl].
Qed.

Lemma str_not_in (x : string) (l : list string) :
  negb (str_in x l) = true <-> ~ In x l.
Proof.
  rewrite <- str_in_In. destruct (str_in x l); simpl; intuition congruence.
Qed.

(** The predicate is the conjunction of its five criteria. *)
Lemma is_gpu_available_iff (g : GPU.t) (gmax mmax fmin : number)
    (ids uuids : list string) :
  is_gpu_available g gmax mmax fmin ids uuids = true <->
  num_le (Float (GPU.gpu_util g)) gmax = true /\
  num_le (Float (GPU.mem_util g)) mmax = true /\
  num_ge (Float (GPU.mem_free g)) fmin = true /\
  ~ In (GPU.id g) ids /\
  ~ In (GPU.uuid g) uuids.
Proof.
  unfold is_gpu_available. rewrite !andb_true_iff, !str_not_in. tauto.
Qed.

(** The normalised exclusion list is the list the caller gave, and the
    empty list when the caller gave none. *)
Lemma or_tuple_default (x : option (list string)) :
  or_tuple x = default [] x.
Proof. destruct x as [[|y l]|]; reflexivity. Qed.

Lemma default_not_in (x : option (list string)) (s : string) :
  ~ In s (default [] x) <-> forall l, x = Some l -> ~ In s l.
Proof.
  destruct x as [l|]; cbn [default from_option]; split.
  - intros N l' E. injection E as <-. exact N.
  - intros N. exact (N l eq_refl).
  - intros _ l' E. discriminate E.
  - intros _ [].
Qed.

(** C5: for every GPU snapshot and every configuration of the options, the
    filter stage returns exactly the records of the snapshot that satisfy
    all five criteria, in their order: compute utilisation and memory
    utilisation at most their ceilings, memory free at least its floor,
    index in no list of excluded ids the caller gave and UUID in no list
    of excluded UUIDs the caller gave; a record whose compute utilisation
    or memory utilisation is NaN is never among them. *)
Theorem C5_filter_is_the_conjunction :
  forall (output : string) (a b c : option number)
         (d e : option (list string)) (gpus : list GPU.t),
    get_gpus output = Ok gpus ->
    exists avail : list GPU.t,
      get_available_gpus output a b c d e = Ok avail /\
      avail =
        List.filter
          (fun g => is_gpu_available g (default (Float float_1) a)
                      (default (Float float_1) b) (default (Int 0) c)
                      (default [] d) (default [] e))
          gpus /\
      (forall g : GPU.t,
         In g avail <->
         In g gpus /\
         num_le (Float (GPU.gpu_util g)) (default (Float float_1) a) = true /\
         num_le (Float (GPU.mem_util g)) (default (Float float_1) b) = true /\
         num_ge (Float (GPU.mem_free g)) (default (Int 0) c) = true /\
         (forall ids : list string, d = Some ids -> ~ In (GPU.id g) ids) /\
         (forall uuids : list string, e = Some uuids -> ~ In (GPU.uuid g) uuids)) /\
      (forall g : GPU.t,
         is_nan (GPU.gpu_util g) = true \/ is_nan (GPU.mem_util g) = true ->
         is_gpu_available g (default (Float float_1) a)
           (default (Float float_1) b) (default (Int 0) c)
           (default [] d) (default [] e) = false /\
         ~ In g avail).
Proof.
  intros output a b c d e gpus H.
  eexists. split; [apply (get_available_gpus_filter _ _ _ _ _ _ _ H)|].
  rewrite !or_tuple_default.
  split; [reflexivity|].
  assert (Hin : forall g,
    In g (List.filter
            (fun g => is_gpu_available g (default (Float float_1) a)
                        (default (Float float_1) b) (default (Int 0) c)
                        (default [] d) (default [] e)) gpus) <->
    In g gpus /\
    num_le (Float (GPU.gpu_util g)) (default (Float float_1) a) = true /\
    num_le (Float (GPU.mem_util g)) (default (Float float_1) b) = true /\
    num_ge (Float (GPU.mem_free g)) (default (Int 0) c) = true /\
    (forall ids : list string, d = Some ids -> ~ In (GPU.id g) ids) /\
    (forall uuids : list string, e = Some uuids -> ~ In (GPU.uuid g) uuids)).
  { intros g. rewrite filter_In, is_gpu_available_iff, !default_not_in.
    reflexivity. }
  split; [exact Hin|].
  intros g Hnan.
  assert (F : is_gpu_available g (default (Float float_1) a)
                (default (Float float_1) b) (default (Int 0) c)
                (default [] d) (default [] e) = false).
  { apply not_true_is_false. rewrite is_gpu_available_iff.
    intros (H1 & H2 & _).
    apply num_le_not_nan in H1. apply num_le_not_nan in H2.
    destruct Hnan; congruence. }
  split; [exact F|].
  rewrite filter_In. rewrite F. intros [_ ?]. discriminate.
Qed.

Example get_gpus_two :
  get_gpus output_two = Ok [gpu_example; gpu_busy] /\
  Ok (GPU.gpu_util gpu_busy) = float_of_str "90.0" /\
  Ok (GPU.mem_util gpu_busy) = float_of_str "95.0" /\
  Ok (GPU.mem_free gpu_busy) = float_of_str "100.0".
Proof. repeat split; vm_compute; reflexivity. Qed.

Example get_available_gpus_two :
  get_available_gpus output_two (Some (Int 50)) (Some (Int 50))
    (Some (Int 500)) None None = Ok [gpu_example].
Proof. vm_compute. reflexivity. Qed.

(** Exclusion by the caller's lists: the busy GPU is left out by its id,
    the other one by its UUID, and both criteria apply together. *)
Example get_available_gpus_exclusions :
  get_available_gpus output_two (Some (Int 100)) (Some (Int 100))
    (Some (Int 0)) (Some ["1"]) None = Ok [gpu_example] /\
  get_available_gpus output_two (Some (Int 100)) (Some (Int 100))
    (Some (Int 0)) None (Some ["GPU-abc"]) = Ok [gpu_busy] /\
  get_available_gpus output_two (Some (Int 100)) (Some (Int 100))
    (Some (Int 0)) (Some ["1"]) (Some ["GPU-abc"]) = Ok [] /\
  get_available_gpus output_two (Some (Int 100)) (Some (Int 100))
    (Some (Int 0)) (Some []) (Some ["GPU-xyz"]) = Ok [gpu_example; gpu_busy].
Proof. repeat split; vm_compute; reflexivity. Qed.

Lemma C5_filter_is_the_conjunction_witness :
  exists avail : list GPU.t,
    get_available_gpus output_two (Some (Int 100)) (Some (Int 100))
      (Some (Int 0)) (Some ["1"]) None = Ok avail /\
    avail =
      List.filter
        (fun g => is_gpu_available g
                    (default (Float float_1) (Some (Int 100)))
                    (default (Float float_1) (Some (Int 100)))
                    (default (Int 0) (Some (Int 0)))
                    (default [] (Some ["1"])) (default [] None))
        [gpu_example; gpu_busy] /\
    (forall g : GPU.t,
       In g avail <->
       In g [gpu_example; gpu_busy] /\
       num_le (Float (GPU.gpu_util g))
         (default (Float float_1) (Some (Int 100))) = true /\
       num_le (Float (GPU.mem_util g))
         (default (Float float_1) (Some (Int 100))) = true /\
       num_ge (Float (GPU.mem_free g))
         (default (Int 0) (Some (Int 0))) = true /\
       (forall ids : list string, Some ["1"] = Some ids -> ~ In (GPU.id g) ids) /\
       (forall uuids : list string,
          @None (list string) = Some uuids -> ~ In (GPU.uuid g) uuids)) /\
    (forall g : GPU.t,
       is_nan (GPU.gpu_util g) = true \/ is_nan (GPU.mem_util g) = true ->
       is_gpu_available g (default (Float float_1) (Some (Int 100)))
         (default (Float float_1) (Some (Int 100)))
         (default (Int 0) (Some (Int 0)))
         (default [] (Some ["1"])) (default [] None) = false /\
       ~ In g avail).
Proof.
  apply (C5_filter_is_the_conjunction output_two (Some (Int 100))
           (Some (Int 100)) (Some (Int 0)) (Some ["1"]) None
           [gpu_example; gpu_busy]).
  vm_compute. reflexivity.
Defined.

(** ** Relaxing a criterion *)

(** The bounds that let every number through: [+inf] as a ceiling and
    [-inf] as a floor (NaN passes no bound). *)
Lemma num_le_inf (x : float) :
  is_nan x = false -> num_le (Float x) (Float inf) = true.
Proof. destruct x as [s|[]| |s m e]; intros H; try reflexivity; discriminate H. Qed.

Lemma num_ge_neg_inf (x : float) :
  is_nan x = false -> num_ge (Float x) (Float neg_inf) = true.
Proof. destruct x as [s|[]| |s m e]; intros H; try reflexivity; discriminate H. Qed.

Lemma or_tuple_None_nil (x : string) : ~ In x (or_tuple None).
Proof. intros []. Qed.

(** A filter by a weaker predicate keeps at least the same elements, in
    the same order. *)
Lemma filter_sublist {A} (p q : A -> bool) (l : list A) :
  (forall x, p x = true -> q x = true) ->
  sublist (List.filter p l) (List.filter q l).
Proof.
  intros H. induction l as [|x l IH]; simpl; [constructor|].
  destruct (p x) eqn:P.
  - rewrite (H x P). constructor. exact IH.
  - destruct (q x); [constructor|]; exact IH.
Qed.

Lemma get_available_gpus_weaker (output : string)
    (a b c a' b' c' : option number) (d e d' e' : option (list string))
    (avail : list GPU.t) :
  (forall g,
     is_gpu_available g (default (Float float_1) a)
       (default (Float float_1) b) (default (Int 0) c)
       (or_tuple d) (or_tuple e) = true ->
     is_gpu_available g (default (Float float_1) a')
       (default (Float float_1) b') (default (Int 0) c')
       (or_tuple d') (or_tuple e') = true) ->
  get_available_gpus output a b c d e = Ok avail ->
  exists relaxed,
    get_available_gpus output a' b' c' d' e' = Ok relaxed /\
    sublist avail relaxed /\
    forall g, In g avail -> In g relaxed.
Proof.
  intros W H.
  destruct (get_available_gpus_ok _ _ _ _ _ _ _ H) as (gpus & G).
  rewrite (get_available_gpus_filter _ _ _ _ _ _ _ G) in H.
  injection H as <-.
  eexists. split; [apply (get_available_gpus_filter _ _ _ _ _ _ _ G)|].
  split; [apply filter_sublist, W|].
  intros g. rewrite !filter_In. intros [? ?]. auto.
Qed.

(** C9: for every GPU snapshot and every configuration of the options,
    relaxing one criterion to the bound that permits everything (an
    infinite ceiling, an infinite floor, an empty exclusion list) while
    the others stay as they are yields a result that contains the original
    result, in the same order: it never shrinks it. *)
Theorem C9_relaxing_a_criterion_never_shrinks :
  forall (output : string) (a b c : option number)
         (d e : option (list string)) (avail : list GPU.t),
    get_available_gpus output a b c d e = Ok avail ->
    (exists r, get_available_gpus output (Some (Float inf)) b c d e = Ok r /\
               sublist avail r /\ forall g, In g avail -> In g r) /\
    (exists r, get_available_gpus output a (Some (Float inf)) c d e = Ok r /\
               sublist avail r /\ forall g, In g avail -> In g r) /\
    (exists r, get_available_gpus output a b (Some (Float neg_inf)) d e = Ok r /\
               sublist avail r /\ forall g, In g avail -> In g r) /\
    (exists r, get_available_gpus output a b c None e = Ok r /\
               sublist avail r /\ forall g, In g avail -> In g r) /\
    (exists r, get_available_gpus output a b c d None = Ok r /\
               sublist avail r /\ forall g, In g avail -> In g r).
Proof.
  intros output a b c d e avail H.
  repeat split;
    (eapply get_available_gpus_weaker; [|exact H]);
    intros g; rewrite !is_gpu_available_iff;
    intros (H1 & H2 & H3 & H4 & H5);
    cbn [default from_option];
    repeat split;
    auto using or_tuple_None_nil, num_le_inf, num_ge_neg_inf.
  - eapply num_le_inf, num_le_not_nan, H1.
  - eapply num_le_inf, num_le_not_nan, H2.
  - eapply num_ge_neg_inf, num_ge_not_nan, H3.
Qed.

Lemma C9_relaxing_a_criterion_never_shrinks_witness :
  (exists r, get_available_gpus output_two (Some (Float inf)) (Some (Int 50))
               (Some (Int 500)) None (Some ["GPU-def"]) = Ok r /\
             sublist [gpu_example] r /\ forall g, In g [gpu_example] -> In g r) /\
  (exists r, get_available_gpus output_two (Some (Int 50)) (Some (Float inf))
               (Some (Int 500)) None (Some ["GPU-def"]) = Ok r /\
             sublist [gpu_example] r /\ forall g, In g [gpu_example] -> In g r) /\
  (exists r, get_available_gpus output_two (Some (Int 50)) (Some (Int 50))
               (Some (Float neg_inf)) None (Some ["GPU-def"]) = Ok r /\
             sublist [gpu_example] r /\ forall g, In g [gpu_example] -> In g r) /\
  (exists r, get_available_gpus output_two (Some (Int 50)) (Some (Int 50))
               (Some (Int 500)) None (Some ["GPU-def"]) = Ok r /\
             sublist [gpu_example] r /\ forall g, In g [gpu_example] -> In g r) /\
  (exists r, get_available_gpus output_two (Some (Int 50)) (Some (Int 50))
               (Some (Int 500)) None None = Ok r /\
             sublist [gpu_example] r /\ forall g, In g [gpu_example] -> In g r).
Proof.
  apply (C9_relaxing_a_criterion_never_shrinks output_two (Some (Int 50))
           (Some (Int 50)) (Some (Int 500)) None (Some ["GPU-def"])
           [gpu_example]).
  vm_compute. reflexivity.
Defined.

(** Relaxing can grow the result: without the ceilings the busy GPU is
    available too. *)
Example relaxing_grows :
  get_available_gpus output_two (Some (Float inf)) (Some (Float inf))
    (Some (Float neg_inf)) None None = Ok [gpu_example; gpu_busy].
Proof. vm_compute. reflexivity. Qed.

(** The ceiling 100 lets through every utilisation a GPU reports, but it
    is not a bound that permits everything: a field above 100 is parsed
    as it stands and compared as it stands. *)
Example ceiling_100_on_a_field_above_100 :
  get_available_gpus
    "0, GPU-abc, 150, 8000, 2000, 6000, 450.1, Tesla, SN1, Enabled, Disabled, 60"
    (Some (Int 200)) (Some (Int 100)) (Some (Int 0)) None None
    = Ok [GPU.mk "0" "GPU-abc" (coerced "150") (coerced "25")
            (coerced "8000") (coerced "2000") (coerced "6000") "450.1"
            "Tesla" "SN1" "Disabled" "Enabled" (coerced "60")] /\
  get_available_gpus
    "0, GPU-abc, 150, 8000, 2000, 6000, 450.1, Tesla, SN1, Enabled, Disabled, 60"
    (Some (Int 100)) (Some (Int 100)) (Some (Int 0)) None None = Ok [].
Proof. split; vm_compute; reflexivity. Qed.

(** ** Defaults *)

(** C3: the defaults of [get_available_gpus] are the ceilings 1.0 and 1.0
    (on utilisations measured in percent), the floor 0 and two empty
    exclusion lists; the defaults of the command line are 100, 100, 0 and
    no exclusion. On the example GPU (5 % busy, 25 % of its memory used)
    the function called without options returns nothing, while the
    ceilings 100 and the command-line defaults return the GPU. *)
Theorem C3_defaults_of_get_available_gpus :
  (forall output : string,
     get_available_gpus output None None None None None =
     get_available_gpus output (Some (Float float_1)) (Some (Float float_1))
       (Some (Int 0)) (Some []) (Some [])) /\
  float_of_str "1.0" = Ok float_1 /\
  get_available_gpus (line_example +:+ linesep) None None None None None
    = Ok [] /\
  get_available_gpus (line_example +:+ linesep) (Some (Int 100))
    (Some (Int 100)) (Some (Int 0)) None None = Ok [gpu_example] /\
  main_ls ls_defaults (line_example +:+ linesep) = Ok [gpu_example].
Proof.
  split; [intros output; reflexivity|].
  repeat split; vm_compute; reflexivity.
Qed.

(** ** Sort and limit *)

(** The records that pass the filter have utilisations other than NaN. *)
Lemma available_not_nan (output : string) (a b c : option number)
    (d e : option (list string)) (avail : list GPU.t) :
  get_available_gpus output a b c d e = Ok avail ->
  Forall (fun g => is_nan (GPU.gpu_util g) = false) avail /\
  Forall (fun g => is_nan (GPU.mem_util g) = false) avail.
Proof.
  intros H.
  destruct (get_available_gpus_ok _ _ _ _ _ _ _ H) as (gpus & G).
  rewrite (get_available_gpus_filter _ _ _ _ _ _ _ G) in H.
  injection H as <-.
  split; apply List.Forall_forall; intros g Hg; apply filter_In in Hg;
    destruct Hg as [_ Hg]; apply is_gpu_available_iff in Hg;
    destruct Hg as (H1 & H2 & _); eapply num_le_not_nan; eauto.
Qed.

Lemma sort_gpus_perm (attr : sort_attr) (l : list GPU.t) :
  Permutation (sort_gpus attr l) l.
Proof. destruct attr; apply list_sort_perm. Qed.

Lemma sort_gpus_in_order (attr : sort_attr) (l : list GPU.t) :
  in_order attr (sort_gpus attr l).
Proof.
  destruct attr; apply list_sort_ascending;
    auto using str_lt_asym, float_lt_asym.
Qed.

Lemma sort_gpus_in_order_id (attr : sort_attr) (l : list GPU.t) :
  in_order attr l -> sort_gpus attr l = l.
Proof. destruct attr; apply list_sort_ascending_id. Qed.

Lemma sort_gpus_stable (attr : sort_attr) (g : GPU.t) (l : list GPU.t) :
  with_key_of attr g (sort_gpus attr l) = with_key_of attr g l.
Proof.
  destruct attr; apply list_sort_stable; intros x y k;
    first [apply str_lt_eq | apply float_lt_eq].
Qed.

Lemma sort_gpus_no_inversion (attr : sort_attr) (l : list GPU.t) :
  Forall (fun g => is_nan (GPU.gpu_util g) = false) l ->
  Forall (fun g => is_nan (GPU.mem_util g) = false) l ->
  no_inversion attr (sort_gpus attr l).
Proof.
  intros G M.
  pose proof (sort_gpus_in_order attr l) as O.
  pose proof (sort_gpus_perm attr l) as P. symmetry in P.
  destruct attr; simpl in *.
  - apply (ascending_strongly str_lt GPU.id (fun _ => True)); auto.
    + intros a b c _ _ _. apply str_ge_trans.
    + apply Forall_forall. auto.
  - apply (ascending_strongly float_lt GPU.gpu_util
             (fun k => is_nan k = false)); auto.
    + intros a b c. apply float_ge_trans.
    + apply (Permutation_Forall P G).
  - apply (ascending_strongly float_lt GPU.mem_util
             (fun k => is_nan k = false)); auto.
    + intros a b c. apply float_ge_trans.
    + apply (Permutation_Forall P M).
Qed.

(** On a filtered collection the order a stable ascending sort produces
    is determined: any rearrangement without inversion that keeps the
    records of every key in their order is the list [sort_gpus] returns. *)
Lemma sort_gpus_unique (attr : sort_attr) (l l' : list GPU.t) :
  Forall (fun g => is_nan (GPU.gpu_util g) = false) l ->
  Forall (fun g => is_nan (GPU.mem_util g) = false) l ->
  Permutation l' l ->
  no_inversion attr l' ->
  (forall g : GPU.t, with_key_of attr g l' = with_key_of attr g l) ->
  l' = sort_gpus attr l.
Proof.
  intros G M P N T.
  pose proof (sort_gpus_no_inversion attr l G M) as N'.
  pose proof (sort_gpus_perm attr l) as P'.
  assert (T' : forall g, with_key_of attr g l'
                         = with_key_of attr g (sort_gpus attr l)).
  { intros g. rewrite sort_gpus_stable. apply T. }
  symmetry in P, P'.
  destruct attr; simpl in *.
  - apply (stable_sorted_unique str_lt GPU.id String.eqb (fun _ => True));
      auto using str_trichotomy.
    + intros a _. apply String.eqb_refl.
    + apply List.Forall_forall. auto.
    + apply List.Forall_forall. auto.
  - apply (stable_sorted_unique float_lt GPU.gpu_util float_eq
             (fun k => is_nan k = false));
      auto using float_eq_refl, float_trichotomy.
    + apply (Permutation_Forall P G).
    + apply (Permutation_Forall P' G).
  - apply (stable_sorted_unique float_lt GPU.mem_util float_eq
             (fun k => is_nan k = false));
      auto using float_eq_refl, float_trichotomy.
    + apply (Permutation_Forall P M).
    + apply (Permutation_Forall P' M).
Qed.

(** The [ls] branch is the filter, then the sort, then the limit. *)
Lemma main_ls_stages (args : ls_args) (output : string) (avail : list GPU.t) :
  get_available_gpus output (Some (Int (gpu_util_max args)))
    (Some (Int (mem_util_max args))) (Some (mem_free_min args))
    (exclude_ids args) (exclude_uuids args) = Ok avail ->
  main_ls args output = take (limit args) (sort_gpus (sort args) avail).
Proof. intros H. unfold main_ls. rewrite H. reflexivity. Qed.

(** Outside the range of counts [islice] accepts, the limit stage
    raises. *)
Lemma take_out_of_range {A} (n : Z) (l : list A) :
  n < 0 \/ maxsize < n -> take n l = Raise ValueError.
Proof.
  intros H. unfold take, islice.
  destruct (0 <=? n) eqn:E1; destruct (n <=? maxsize) eqn:E2;
    try reflexivity; lia.
Qed.

(** C8, in the form that holds of the code: for every filtered collection
    of GPU records, every sort key and every limit from 0 to
    [sys.maxsize]: the sort
    rearranges the collection into ascending order of the key; it is stable
    (the records with a given key keep their order); it is idempotent, and
    any collection already in order is returned as it is; the limit stage
    then yields the first [limit] records, so at most [limit] of them,
    none for the limit 0 and all of them for a limit that is at least the
    size of the collection. *)
Theorem C8_sort_stable_idempotent_then_limit :
  forall (output : string) (a b c : option number)
         (d e : option (list string)) (avail : list GPU.t)
         (attr : sort_attr) (limit : Z),
    get_available_gpus output a b c d e = Ok avail ->
    0 <= limit <= maxsize ->
    Permutation (sort_gpus attr avail) avail /\
    no_inversion attr (sort_gpus attr avail) /\
    (forall g : GPU.t,
       with_key_of attr g (sort_gpus attr avail) = with_key_of attr g avail) /\
    sort_gpus attr (sort_gpus attr avail) = sort_gpus attr avail /\
    (forall l : list GPU.t, in_order attr l -> sort_gpus attr l = l) /\
    exists shown : list GPU.t,
      take limit (sort_gpus attr avail) = Ok shown /\
      shown = firstn (Z.to_nat limit) (sort_gpus attr avail) /\
      Z.of_nat (length shown) <= limit /\
      (limit = 0 -> shown = []) /\
      (Z.of_nat (length avail) <= limit -> shown = sort_gpus attr avail).
Proof.
  intros output a b c d e avail attr limit H L.
  destruct (available_not_nan _ _ _ _ _ _ _ H) as [G M].
  split; [apply sort_gpus_perm|].
  split; [apply sort_gpus_no_inversion; assumption|].
  split; [intros g; apply sort_gpus_stable|].
  split; [apply sort_gpus_in_order_id, sort_gpus_in_order|].
  split; [intros l; apply sort_gpus_in_order_id|].
  exists (firstn (Z.to_nat limit) (sort_gpus attr avail)).
  split.
  { unfold take, islice.
    destruct (0 <=? limit) eqn:E1; destruct (limit <=? maxsize) eqn:E2;
      try reflexivity; lia. }
  split; [reflexivity|].
  split; [rewrite length_firstn; lia|].
  split; [intros ->; reflexivity|].
  intros S. apply firstn_all2.
  rewrite (Permutation_length (sort_gpus_perm attr avail)). lia.
Qed.

Example main_ls_busy_first :
  main_ls {| limit := 1; mem_free_min := Int 0; mem_util_max := 100;
             gpu_util_max := 100; exclude_ids := None;
             exclude_uuids := None; sort := sort_gpu_util |}
    output_busy_first = Ok [gpu_example] /\
  main_ls {| limit := 0; mem_free_min := Int 0; mem_util_max := 100;
             gpu_util_max := 100; exclude_ids := None;
             exclude_uuids := None; sort := sort_gpu_util |}
    output_busy_first = Ok [] /\
  main_ls {| limit := 999; mem_free_min := Int 0; mem_util_max := 100;
             gpu_util_max := 100; exclude_ids := None;
             exclude_uuids := None; sort := sort_mem_util |}
    output_busy_first = Ok [gpu_example; gpu_busy] /\
  main_ls {| limit := -1; mem_free_min := Int 0; mem_util_max := 100;
             gpu_util_max := 100; exclude_ids := None;
             exclude_uuids := None; sort := sort_id |}
    output_busy_first = Raise ValueError.
Proof. repeat split; vm_compute; reflexivity. Qed.

Lemma C8_sort_stable_idempotent_then_limit_witness :
  Permutation (sort_gpus sort_gpu_util [gpu_busy; gpu_example])
    [gpu_busy; gpu_example] /\
  no_inversion sort_gpu_util (sort_gpus sort_gpu_util [gpu_busy; gpu_example]) /\
  (forall g : GPU.t,
     with_key_of sort_gpu_util g (sort_gpus sort_gpu_util [gpu_busy; gpu_example])
     = with_key_of sort_gpu_util g [gpu_busy; gpu_example]) /\
  sort_gpus sort_gpu_util (sort_gpus sort_gpu_util [gpu_busy; gpu_example])
    = sort_gpus sort_gpu_util [gpu_busy; gpu_example] /\
  (forall l : list GPU.t,
     in_order sort_gpu_util l -> sort_gpus sort_gpu_util l = l) /\
  exists shown : list GPU.t,
    take 1 (sort_gpus sort_gpu_util [gpu_busy; gpu_example]) = Ok shown /\
    shown = firstn (Z.to_nat 1) (sort_gpus sort_gpu_util [gpu_busy; gpu_example]) /\
    Z.of_nat (length shown) <= 1 /\
    (1 = 0 -> shown = []) /\
    (Z.of_nat (length [gpu_busy; gpu_example]) <= 1 ->
     shown = sort_gpus sort_gpu_util [gpu_busy; gpu_example]).
Proof.
  apply (C8_sort_stable_idempotent_then_limit output_busy_first
           (Some (Int 100)) (Some (Int 100)) (Some (Int 0)) None None
           [gpu_busy; gpu_example] sort_gpu_util 1).
  - vm_compute. reflexivity.
  - unfold maxsize. lia.
Defined.

(** C8, where it fails as written: the limit 2^63 is at least the size of
    the collection, yet the limit stage, and with it the [ls] branch,
    raises [ValueError] instead of yielding the whole collection:
    [islice] accepts no count above [sys.maxsize]. *)
Lemma C8_limit_above_maxsize_raises :
  get_available_gpus output_busy_first (Some (Int 100)) (Some (Int 100))
    (Some (Int 0)) None None = Ok [gpu_busy; gpu_example] /\
  Z.of_nat (length [gpu_busy; gpu_example]) <= 2 ^ 63 /\
  take (2 ^ 63) (sort_gpus sort_gpu_util [gpu_busy; gpu_example])
    = Raise ValueError /\
  take (2 ^ 63) (sort_gpus sort_gpu_util [gpu_busy; gpu_example])
    <> Ok (sort_gpus sort_gpu_util [gpu_busy; gpu_example]) /\
  main_ls {| limit := 2 ^ 63; mem_free_min := Int 0; mem_util_max := 100;
             gpu_util_max := 100; exclude_ids := None;
             exclude_uuids := None; sort := sort_gpu_util |}
    output_busy_first = Raise ValueError.
Proof.
  split; [vm_compute; reflexivity|].
  split; [vm_compute; discriminate|].
  split; [vm_compute; reflexivity|].
  split; [vm_compute; discriminate|].
  vm_compute. reflexivity.
Qed.

(** Stability seen on a tie: two GPUs with the same utilisation keep the
    order of the snapshot, whatever their ids. *)
Example sort_keeps_ties :
  forall g1 g2 : GPU.t,
    GPU.gpu_util g1 = GPU.gpu_util g2 ->
    is_nan (GPU.gpu_util g1) = false ->
    sort_gpus sort_gpu_util [g1; g2] = [g1; g2].
Proof.
  intros g1 g2 E N. simpl. rewrite E in *.
  replace (float_lt (GPU.gpu_util g2) (GPU.gpu_util g2)) with false;
    [reflexivity|].
  symmetry. destruct (float_lt (GPU.gpu_util g2) (GPU.gpu_util g2)) eqn:F;
    [|reflexivity].
  rewrite (float_lt_asym _ _ F) in F. discriminate.
Qed.

(** ** Sorting by id *)

(** [<] on strings compares the first characters by code and goes on to
    the rest when they are equal; the empty string is smaller than any
    other. *)
Lemma str_lt_lexicographic (c c' : ascii) (s s' : string) :
  str_lt (String c s) (String c' s') =
    (code c <? code c') || ((code c =? code c') && str_lt s s').
Proof.
  unfold str_lt, code. simpl. unfold Ascii.compare, nat_of_ascii.
  destruct (N.compare_spec (N_of_ascii c) (N_of_ascii c')) as [E|E|E].
  - rewrite E, Z.ltb_irrefl, Z.eqb_refl. reflexivity.
  - replace (_ <? _) with true by (symmetry; apply Z.ltb_lt; lia). reflexivity.
  - replace (_ <? _) with false by (symmetry; apply Z.ltb_ge; lia).
    replace (_ =? _) with false by (symmetry; apply Z.eqb_neq; lia).
    reflexivity.
Qed.


Example main_ls_ids :
  get_gpus (line_id_2 +:+ linesep +:+ line_id_10 +:+ linesep)
    = Ok [gpu_id_2; gpu_id_10] /\
  main_ls ls_defaults (line_id_2 +:+ linesep +:+ line_id_10 +:+ linesep)
    = Ok [gpu_id_10; gpu_id_2].
Proof. split; vm_compute; reflexivity. Qed.


(* ===================================================================== *)
(** * Further properties                                                  *)
(* ===================================================================== *)

(** ** Traversals that can raise *)

Lemma mapM_Ok_Forall2 {A B} (f : A -> result B) (l : list A) (ys : list B) :
  mapM f l = Ok ys <-> Forall2 (fun x y => f x = Ok y) l ys.
Proof.
  revert ys. induction l as [|x l IH]; intros ys; simpl.
  - split.
    + intros H. injection H as <-. constructor.
    + intros H. inversion H. reflexivity.
  - split.
    + destruct (f x) as [y|e] eqn:F; cbn [mbind result_bind]; [|discriminate].
      destruct (mapM f l) as [zs|e] eqn:M; cbn [mbind result_bind];
        [|discriminate].
      intros H. injection H as <-. constructor; [exact F|]. apply IH. reflexivity.
    + intros H. inversion H as [|? y ? zs F R]; subst.
      rewrite F. cbn [mbind result_bind].
      apply IH in R. rewrite R. reflexivity.
Qed.

Lemma mapM_length {A B} (f : A -> result B) (l : list A) (ys : list B) :
  mapM f l = Ok ys -> length ys = length l.
Proof.
  rewrite mapM_Ok_Forall2. intros H. symmetry.
  induction H; simpl; congruence.
Qed.

Lemma mapM_Raise_intro {A B} (f : A -> result B) (l1 l2 : list A) (x : A)
    (e : exn) :
  is_ok (mapM f l1) = true -> f x = Raise e ->
  mapM f (l1 ++ x :: l2) = Raise e.
Proof.
  intros O R. induction l1 as [|w l1 IH]; simpl in *.
  - rewrite R. reflexivity.
  - destruct (f w) as [y|e']; cbn [mbind result_bind] in *; [|discriminate O].
    destruct (mapM f l1) as [ys|e']; cbn [mbind result_bind] in *;
      [|discriminate O].
    rewrite (IH eq_refl). reflexivity.
Qed.

Lemma mapM_Raise_inv {A B} (f : A -> result B) (l : list A) (e : exn) :
  mapM f l = Raise e ->
  exists l1 x l2, l = l1 ++ x :: l2 /\ is_ok (mapM f l1) = true /\
                  f x = Raise e.
Proof.
  induction l as [|x l IH]; simpl; [discriminate|].
  destruct (f x) as [y|e'] eqn:F; cbn [mbind result_bind].
  - destruct (mapM f l) as [zs|e''] eqn:M; cbn [mbind result_bind];
      [discriminate|].
    intros H. injection H as ->.
    destruct (IH eq_refl) as (l1 & z & l2 & E & O & R).
    exists (x :: l1), z, l2. subst l. repeat split; auto.
    simpl. rewrite F. cbn [mbind result_bind].
    destruct (mapM f l1); [reflexivity|discriminate O].
  - intros H. injection H as ->. exists [], x, l. auto.
Qed.

(** A traversal raises exactly when some element does; the exception is
    that of the first such element. *)
Lemma mapM_Raise {A B} (f : A -> result B) (l : list A) (e : exn) :
  mapM f l = Raise e <->
  exists l1 x l2, l = l1 ++ x :: l2 /\ is_ok (mapM f l1) = true /\
                  f x = Raise e.
Proof.
  split; [apply mapM_Raise_inv|].
  intros (l1 & x & l2 & -> & O & R). apply mapM_Raise_intro; assumption.
Qed.

(** ** Lines *)

Lemma str_app_nil_l (s : string) : "" +:+ s = s.
Proof. reflexivity. Qed.

Lemma str_app_cons (c : ascii) (s t : string) :
  String c s +:+ t = String c (s +:+ t).
Proof. reflexivity. Qed.

Lemma str_app_nil_r (s : string) : s +:+ "" = s.
Proof.
  induction s as [|c s IH]; [reflexivity|].
  rewrite str_app_cons, IH. reflexivity.
Qed.

Lemma str_app_assoc (a b c : string) : (a +:+ b) +:+ c = a +:+ (b +:+ c).
Proof.
  induction a as [|x a IH]; [reflexivity|].
  rewrite !str_app_cons, IH. reflexivity.
Qed.

(** The first line of a text is its first piece. *)
Lemma split_from_line (line rest cur : string) :
  no_newline line = true ->
  split_from linesep (line +:+ linesep +:+ rest) 0 cur
  = (cur +:+ line) :: split_from linesep rest 0 "".
Proof.
  revert cur. induction line as [|c line IH]; intros cur N.
  - rewrite str_app_nil_l. unfold linesep at 2. rewrite str_app_cons, str_app_nil_l.
    cbn [split_from linesep String.prefix].
    destruct (ascii_dec (ascii_of_nat 10) (ascii_of_nat 10)) as [_|D];
      [|contradiction].
    rewrite str_app_nil_r. destruct rest; reflexivity.
  - unfold no_newline in N. cbn [list_ascii_of_string forallb] in N.
    apply andb_true_iff in N. destruct N as [Nc N].
    rewrite str_app_cons.
    cbn [split_from linesep String.prefix].
    destruct (ascii_dec (ascii_of_nat 10) c) as [E|_].
    { subst c. discriminate Nc. }
    rewrite (IH (cur +:+ String c "") N), str_app_assoc. reflexivity.
Qed.

Lemma str_split_unlines (lines : list string) :
  forallb no_newline lines = true ->
  str_split (unlines lines) linesep = lines ++ [""].
Proof.
  unfold str_split. induction lines as [|line lines IH]; intros N.
  - reflexivity.
  - cbn [forallb] in N. apply andb_true_iff in N. destruct N as [N1 N2].
    cbn [unlines fold_right]. rewrite (split_from_line _ _ _ N1).
    fold (unlines lines). rewrite (IH N2). reflexivity.
Qed.

(** ** Blank lines *)

Lemma lstrip_nil_iff (sp : ascii -> bool) (s : list ascii) :
  lstrip_with sp s = [] <-> forallb sp s = true.
Proof.
  induction s as [|c s IH]; simpl; [tauto|].
  destruct (sp c); simpl; [exact IH|]. split; discriminate.
Qed.

Lemma lstrip_forallb (sp : ascii -> bool) (s : list ascii) :
  forallb sp s = false -> forallb sp (lstrip_with sp s) = false.
Proof.
  induction s as [|c s IH]; simpl; [auto|].
  destruct (sp c) eqn:E; simpl; [exact IH|]. rewrite E. reflexivity.
Qed.

Lemma forallb_rev {A} (p : A -> bool) (l : list A) :
  forallb p (rev l) = forallb p l.
Proof.
  induction l as [|x l IH]; [reflexivity|].
  simpl. rewrite forallb_app, IH. simpl. rewrite andb_true_r. apply andb_comm.
Qed.

(** Stripping leaves nothing exactly of the strings of white space. *)
Lemma strip_nil_iff (sp : ascii -> bool) (s : list ascii) :
  strip_with sp s = [] <-> forallb sp s = true.
Proof.
  unfold strip_with. split.
  - intros H. destruct (forallb sp s) eqn:F; [reflexivity|].
    apply lstrip_forallb in F. rewrite <- forallb_rev in F.
    apply lstrip_forallb in F. rewrite <- forallb_rev, H in F. discriminate F.
  - intros H. apply lstrip_nil_iff in H. rewrite H. reflexivity.
Qed.

Lemma str_strip_blank (line : string) :
  str_bool (str_strip line) = negb (blank line).
Proof.
  unfold str_strip, blank.
  destruct (strip_with is_py_space (list_ascii_of_string line)) as [|c r] eqn:E.
  - apply strip_nil_iff in E. rewrite E. reflexivity.
  - destruct (forallb is_py_space (list_ascii_of_string line)) eqn:F;
      [|reflexivity].
    apply strip_nil_iff in F. congruence.
Qed.

Lemma record_lines_not_blank (output : string) :
  Forall (fun line => blank line = false) (record_lines output).
Proof.
  apply List.Forall_forall. intros line H. unfold record_lines in H.
  apply filter_In in H. destruct H as [_ H]. rewrite str_strip_blank in H.
  destruct (blank line); [discriminate|reflexivity].
Qed.

Lemma record_lines_unlines (lines : list string) :
  forallb no_newline lines = true ->
  record_lines (unlines lines) = List.filter (fun line => negb (blank line)) lines.
Proof.
  intros N. unfold record_lines. rewrite (str_split_unlines _ N).
  rewrite List.filter_app. cbn [List.filter]. rewrite str_strip_blank.
  cbn. rewrite app_nil_r. apply List.filter_ext. intros line.
  apply str_strip_blank.
Qed.

(** ** The snapshot parser *)

(** X1: on a text made of lines, each ended by a line feed, [get_gpus]
    parses the lines that are not blank, in order, and nothing else: blank
    lines (the empty line after the last line feed among them) never
    reach the line parser. *)
Theorem get_gpus_of_lines :
  forall lines : list string,
    forallb no_newline lines = true ->
    get_gpus (unlines lines)
    = mapM get_gpu (List.filter (fun line => negb (blank line)) lines).
Proof.
  intros lines N. unfold get_gpus. rewrite (record_lines_unlines _ N).
  reflexivity.
Qed.

Lemma get_gpus_of_lines_witness :
  get_gpus (unlines [line_example; "  "; ""; line_busy])
  = mapM get_gpu
      (List.filter (fun line => negb (blank line))
         [line_example; "  "; ""; line_busy]).
Proof.
  apply (get_gpus_of_lines [line_example; "  "; ""; line_busy]).
  vm_compute. reflexivity.
Defined.

Example get_gpus_blank_lines :
  get_gpus (unlines [line_example; "  "; ""; line_busy])
    = Ok [gpu_example; gpu_busy] /\
  get_gpus "" = Ok [] /\
  get_gpus (unlines [""; " "]) = Ok [].
Proof. repeat split; vm_compute; reflexivity. Qed.

Lemma nth_next_nil (i : nat) : nth_next i [] = StopIteration.
Proof. induction i as [|i IH]; [reflexivity|exact IH]. Qed.

Lemma nth_next_blank (i : nat) (line : string) (rest : list string) :
  str_bool (str_strip line) = false ->
  nth_next i (line :: rest) = nth_next i rest.
Proof.
  intros B. destruct i; cbn [nth_next get_gpus_next]; rewrite B;
    destruct rest; reflexivity.
Qed.

Lemma nth_next_yield (i : nat) (line : string) (rest : list string)
    (g : GPU.t) :
  str_bool (str_strip line) = true -> get_gpu line = Ok g ->
  nth_next i (line :: rest) =
    match i with O => Yield g | S k => nth_next k rest end.
Proof.
  intros B G. destruct i; cbn [nth_next get_gpus_next]; rewrite B, G;
    reflexivity.
Qed.

Lemma nth_next_throw (i : nat) (line : string) (rest : list string)
    (e : exn) :
  str_bool (str_strip line) = true -> get_gpu line = Raise e ->
  nth_next i (line :: rest) =
    match i with O => Throw e | S k => StopIteration end.
Proof.
  intros B G. destruct i; cbn [nth_next get_gpus_next]; rewrite B, G;
    [reflexivity|]. apply nth_next_nil.
Qed.

Lemma mapM_cons_Ok {A B} (f : A -> result B) (x : A) (l : list A)
    (ys : list B) :
  mapM f (x :: l) = Ok ys ->
  exists y zs, f x = Ok y /\ mapM f l = Ok zs /\ ys = y :: zs.
Proof.
  cbn [mapM]. destruct (f x) as [y|e]; cbn [mbind result_bind];
    [|discriminate].
  destruct (mapM f l) as [zs|e]; cbn [mbind result_bind]; [|discriminate].
  intros H. injection H as <-. eauto.
Qed.

(** When every record line parses, the generator yields the records and
    then ends. *)
Lemma nth_next_all (lines : list string) (gs : list GPU.t) :
  mapM get_gpu
    (List.filter (fun line => str_bool (str_strip line)) lines) = Ok gs ->
  forall i, nth_next i lines =
    match gs !! i with
    | Some g => Yield g
    | None => StopIteration
    end.
Proof.
  revert gs. induction lines as [|line rest IH]; intros gs M i.
  - cbn in M. injection M as <-. rewrite nth_next_nil. reflexivity.
  - cbn [List.filter] in M.
    destruct (str_bool (str_strip line)) eqn:B.
    + apply mapM_cons_Ok in M. destruct M as (g & gs' & G & M & ->).
      rewrite (nth_next_yield i line rest g B G).
      destruct i; [reflexivity|]. apply (IH gs' M).
    + rewrite (nth_next_blank i line rest B). apply (IH gs M).
Qed.

(** When a record line makes the parser raise, the generator yields the
    records of the lines before it, raises, and then ends. *)
Lemma nth_next_until (lines before after : list string) (bad : string)
    (parsed : list GPU.t) (e : exn) :
  List.filter (fun line => str_bool (str_strip line)) lines
    = before ++ bad :: after ->
  mapM get_gpu before = Ok parsed ->
  get_gpu bad = Raise e ->
  forall i, nth_next i lines =
    match parsed !! i with
    | Some g => Yield g
    | None => if (i =? length parsed)%nat then Throw e else StopIteration
    end.
Proof.
  revert before parsed. induction lines as [|line rest IH];
    intros before parsed F M R i.
  - destruct before; discriminate F.
  - cbn [List.filter] in F.
    destruct (str_bool (str_strip line)) eqn:B.
    + destruct before as [|b before].
      * cbn in F. injection F as -> F. cbn in M. injection M as <-.
        rewrite (nth_next_throw i bad rest e B R). destruct i; reflexivity.
      * cbn in F. injection F as -> F.
        apply mapM_cons_Ok in M. destruct M as (g & gs' & G & M & ->).
        rewrite (nth_next_yield i b rest g B G).
        destruct i; [reflexivity|]. apply (IH before gs' F M R).
    + rewrite (nth_next_blank i line rest B). apply (IH before parsed F M R).
Qed.

(** X2: the generator [get_gpus] returns yields, one per [next()] and in
    order, the records of the non-blank lines; when the line parser raises
    on a line, the records of the lines before it have been yielded, that
    [next()] raises the exception, and the generator is finished. The list
    obtained by consuming the generator at once, as the callers in the
    module do, is therefore the list of all the records when no line
    raises, and the exception of the first line that raises otherwise. *)
Theorem get_gpus_generator_steps :
  forall output : string,
    match get_gpus output with
    | Ok gpus =>
        forall i : nat,
          nth_next i (str_split output linesep) =
            match gpus !! i with
            | Some g => Yield g
            | None => StopIteration
            end
    | Raise e =>
        exists (before after : list string) (bad : string)
               (parsed : list GPU.t),
          record_lines output = before ++ bad :: after /\
          mapM get_gpu before = Ok parsed /\
          get_gpu bad = Raise e /\
          forall i : nat,
            nth_next i (str_split output linesep) =
              match parsed !! i with
              | Some g => Yield g
              | None =>
                  if (i =? length parsed)%nat then Throw e else StopIteration
              end
    end.
Proof.
  intros output. destruct (get_gpus output) as [gpus|e] eqn:G.
  - apply nth_next_all. exact G.
  - unfold get_gpus in G. apply mapM_Raise_inv in G.
    destruct G as (before & bad & after & L & O & R).
    destruct (mapM get_gpu before) as [parsed|e'] eqn:M; [|discriminate O].
    exists before, after, bad, parsed. repeat split; auto.
    apply (nth_next_until _ before after bad parsed e); auto.
Qed.

Example generator_of_a_snapshot_with_a_bad_line :
  nth_next 0 (str_split output_zero_total_second linesep) = Yield gpu_example /\
  nth_next 1 (str_split output_zero_total_second linesep)
    = Throw ZeroDivisionError /\
  nth_next 2 (str_split output_zero_total_second linesep) = StopIteration /\
  get_gpus output_zero_total_second = Raise ZeroDivisionError.
Proof. repeat split; vm_compute; reflexivity. Qed.

(** X3: the line parser fails in two ways only. It raises [IndexError]
    exactly on a line of fewer than 12 fields, [ZeroDivisionError] exactly
    on a line of at least 12 fields whose memory total coerces to a zero,
    and returns a record on every other line; it never raises
    [ValueError], whatever the fields hold. *)
Theorem get_gpu_outcomes :
  forall line : string,
    match get_gpu line with
    | Ok g =>
        (12 <= length (str_split line ", "))%nat /\
        is_zero (GPU.mem_total g) = false
    | Raise IndexError => (length (str_split line ", ") < 12)%nat
    | Raise ZeroDivisionError =>
        (12 <= length (str_split line ", "))%nat /\
        exists token,
          str_split line ", " !! 3%nat = Some token /\
          is_zero (coerced token) = true
    | Raise ValueError => False
    end.
Proof.
  intros line.
  destruct (Nat.lt_ge_cases (length (str_split line ", ")) 12) as [Hs|Hl].
  { rewrite (get_gpu_short line Hs). exact Hs. }
  destruct (twelve_fields _ Hl)
    as (v0 & v1 & v2 & v3 & v4 & v5 & v6 & v7 & v8 & v9 & v10 & v11 & rest & E).
  rewrite (get_gpu_fields line _ _ _ _ _ _ _ _ _ _ _ _ _ E), GPU_init_spec.
  destruct (is_zero (coerced v3)) eqn:Z.
  - split; [exact Hl|]. exists v3. rewrite E. auto.
  - cbn [GPU.mem_total]. auto.
Qed.

(** X4: every attribute of a parsed record comes from its own column:
    the strings are fields 0, 1, 6, 7, 8 as they stand, [display_active]
    is field 9 and [display_mode] field 10, and the numbers are the
    coercions of fields 2, 3, 4, 5 and 11. *)
Theorem get_gpu_columns :
  forall (line : string) (g : GPU.t),
    get_gpu line = Ok g ->
    str_split line ", " !! 0%nat = Some (GPU.id g) /\
    str_split line ", " !! 1%nat = Some (GPU.uuid g) /\
    str_split line ", " !! 6%nat = Some (GPU.driver g) /\
    str_split line ", " !! 7%nat = Some (GPU.name g) /\
    str_split line ", " !! 8%nat = Some (GPU.serial g) /\
    str_split line ", " !! 9%nat = Some (GPU.display_active g) /\
    str_split line ", " !! 10%nat = Some (GPU.display_mode g) /\
    (getitem (str_split line ", ") 2 ≫= to_float_or_inf) = Ok (GPU.gpu_util g) /\
    (getitem (str_split line ", ") 3 ≫= to_float_or_inf) = Ok (GPU.mem_total g) /\
    (getitem (str_split line ", ") 4 ≫= to_float_or_inf) = Ok (GPU.mem_used g) /\
    (getitem (str_split line ", ") 5 ≫= to_float_or_inf) = Ok (GPU.mem_free g) /\
    (getitem (str_split line ", ") 11 ≫= to_float_or_inf) = Ok (GPU.temperature g).
Proof.
  intros line g Hg.
  destruct (Nat.lt_ge_cases (length (str_split line ", ")) 12) as [Hs|Hl].
  { rewrite (get_gpu_short line Hs) in Hg. discriminate. }
  destruct (twelve_fields _ Hl)
    as (v0 & v1 & v2 & v3 & v4 & v5 & v6 & v7 & v8 & v9 & v10 & v11 & rest & E).
  rewrite (get_gpu_fields line _ _ _ _ _ _ _ _ _ _ _ _ _ E), GPU_init_spec in Hg.
  destruct (is_zero (coerced v3)); [discriminate|].
  injection Hg as <-. rewrite E.
  cbn [getitem lookup list_lookup mbind result_bind].
  rewrite !to_float_or_inf_coerced. repeat split.
Qed.

Lemma get_gpu_columns_witness :
  str_split line_example ", " !! 0%nat = Some (GPU.id gpu_example) /\
  str_split line_example ", " !! 1%nat = Some (GPU.uuid gpu_example) /\
  str_split line_example ", " !! 6%nat = Some (GPU.driver gpu_example) /\
  str_split line_example ", " !! 7%nat = Some (GPU.name gpu_example) /\
  str_split line_example ", " !! 8%nat = Some (GPU.serial gpu_example) /\
  str_split line_example ", " !! 9%nat = Some (GPU.display_active gpu_example) /\
  str_split line_example ", " !! 10%nat = Some (GPU.display_mode gpu_example) /\
  (getitem (str_split line_example ", ") 2 ≫= to_float_or_inf)
    = Ok (GPU.gpu_util gpu_example) /\
  (getitem (str_split line_example ", ") 3 ≫= to_float_or_inf)
    = Ok (GPU.mem_total gpu_example) /\
  (getitem (str_split line_example ", ") 4 ≫= to_float_or_inf)
    = Ok (GPU.mem_used gpu_example) /\
  (getitem (str_split line_example ", ") 5 ≫= to_float_or_inf)
    = Ok (GPU.mem_free gpu_example) /\
  (getitem (str_split line_example ", ") 11 ≫= to_float_or_inf)
    = Ok (GPU.temperature gpu_example).
Proof.
  apply (get_gpu_columns line_example gpu_example).
  vm_compute. reflexivity.
Defined.

(** ** Numbers that are missing *)

Lemma is_gpu_available_not_nan (g : GPU.t) (gmax mmax fmin : number)
    (ids uuids : list string) :
  is_gpu_available g gmax mmax fmin ids uuids = true ->
  is_nan (GPU.gpu_util g) = false /\
  is_nan (GPU.mem_util g) = false /\
  is_nan (GPU.mem_free g) = false.
Proof.
  rewrite is_gpu_available_iff. intros (H1 & H2 & H3 & _).
  apply num_le_not_nan in H1. apply num_le_not_nan in H2.
  apply num_ge_not_nan in H3. auto.
Qed.

Lemma fdiv_nan_l (y : float) : fdiv nan y = nan.
Proof. reflexivity. Qed.

(** X5: a GPU whose compute utilisation, memory total, memory used or
    memory free (fields 2 to 5) is not a number is available under no
    configuration of the thresholds and exclusions. *)
Theorem not_a_number_is_never_available :
  forall (line : string) (g : GPU.t) (i : nat) (token : string),
    get_gpu line = Ok g ->
    (2 <= i <= 5)%nat ->
    str_split line ", " !! i = Some token ->
    to_float_or_inf token = Ok nan ->
    forall (gmax mmax fmin : number) (ids uuids : list string),
      is_gpu_available g gmax mmax fmin ids uuids = false.
Proof.
  intros line g i token Hg Hi Ht Hn gmax mmax fmin ids uuids.
  rewrite to_float_or_inf_coerced in Hn. injection Hn as Hn.
  destruct (Nat.lt_ge_cases (length (str_split line ", ")) 12) as [Hs|Hl].
  { rewrite (get_gpu_short line Hs) in Hg. discriminate. }
  destruct (twelve_fields _ Hl)
    as (v0 & v1 & v2 & v3 & v4 & v5 & v6 & v7 & v8 & v9 & v10 & v11 & rest & E).
  rewrite (get_gpu_fields line _ _ _ _ _ _ _ _ _ _ _ _ _ E), GPU_init_spec in Hg.
  destruct (is_zero (coerced v3)); [discriminate|].
  injection Hg as <-. rewrite E in Ht.
  apply not_true_is_false. intros A.
  apply is_gpu_available_not_nan in A.
  cbn [GPU.gpu_util GPU.mem_util GPU.mem_free] in A.
  destruct A as (A1 & A2 & A3).
  assert (Hi' : i = 2%nat \/ i = 3%nat \/ i = 4%nat \/ i = 5%nat) by lia.
  destruct Hi' as [-> | [-> | [-> | ->]]];
    cbn [lookup list_lookup] in Ht; injection Ht as <-.
  - rewrite Hn in A1. discriminate.
  - rewrite Hn, fdiv_nan_r in A2. discriminate.
  - rewrite Hn, fdiv_nan_l in A2. discriminate.
  - rewrite Hn in A3. discriminate.
Qed.

Lemma not_a_number_is_never_available_witness :
  is_gpu_available
    (GPU.mk "0" "GPU-abc" (coerced "5") nan (coerced "8000") nan
       (coerced "6000") "450.1" "Tesla" "SN1" "Disabled" "Enabled"
       (coerced "60"))
    (Float inf) (Float inf) (Float neg_inf) [] [] = false.
Proof.
  apply (not_a_number_is_never_available
           "0, GPU-abc, 5, 8000, [N/A], 6000, 450.1, Tesla, SN1, Enabled, Disabled, 60"
           (GPU.mk "0" "GPU-abc" (coerced "5") nan (coerced "8000") nan
              (coerced "6000") "450.1" "Tesla" "SN1" "Disabled" "Enabled"
              (coerced "60"))
           4%nat "[N/A]").
  - vm_compute. reflexivity.
  - lia.
  - vm_compute. reflexivity.
  - vm_compute. reflexivity.
Defined.

(** ** A snapshot that cannot be parsed *)

(** X6: when a record line of the GPU snapshot makes the line parser
    raise and the lines before it parse, every entry point that reads the
    snapshot raises that exception, whatever its options and whatever the
    process listing holds: the filter (also when the options exclude that
    GPU), the [ls] branch, the UUID map, the process listing and the [ps]
    branch. *)
Theorem bad_line_fails_every_entry_point :
  forall (output : string) (before after : list string) (line : string)
         (e : exn),
    record_lines output = before ++ line :: after ->
    is_ok (mapM get_gpu before) = true ->
    get_gpu line = Raise e ->
    (forall (a b c : option number) (d e' : option (list string)),
       get_available_gpus output a b c d e' = Raise e) /\
    (forall args : ls_args, main_ls args output = Raise e) /\
    _populate_gpu_uuid_to_id_map output = Raise e /\
    (forall procs_output : string,
       get_gpu_processes procs_output output = Raise e) /\
    (forall (args : ps_args) (procs_output : string),
       main_ps args procs_output output = Raise e).
Proof.
  intros output before after line e L O R.
  assert (G : get_gpus output = Raise e).
  { unfold get_gpus. rewrite L. apply mapM_Raise_intro; assumption. }
  assert (A : forall a b c d e', get_available_gpus output a b c d e' = Raise e).
  { intros. unfold get_available_gpus. rewrite G. reflexivity. }
  assert (P : _populate_gpu_uuid_to_id_map output = Raise e).
  { unfold _populate_gpu_uuid_to_id_map. rewrite G. reflexivity. }
  assert (Q : forall procs_output, get_gpu_processes procs_output output = Raise e).
  { intros. unfold get_gpu_processes. rewrite P. reflexivity. }
  repeat split; auto.
  - intros args. unfold main_ls. rewrite A. reflexivity.
  - intros args procs_output. unfold main_ps. rewrite Q. reflexivity.
Qed.

Lemma bad_line_fails_every_entry_point_witness :
  (forall (a b c : option number) (d e' : option (list string)),
     get_available_gpus output_zero_total_second a b c d e'
     = Raise ZeroDivisionError) /\
  (forall args : ls_args,
     main_ls args output_zero_total_second = Raise ZeroDivisionError) /\
  _populate_gpu_uuid_to_id_map output_zero_total_second
    = Raise ZeroDivisionError /\
  (forall procs_output : string,
     get_gpu_processes procs_output output_zero_total_second
     = Raise ZeroDivisionError) /\
  (forall (args : ps_args) (procs_output : string),
     main_ps args procs_output output_zero_total_second
     = Raise ZeroDivisionError).
Proof.
  apply (bad_line_fails_every_entry_point output_zero_total_second
           [line_example] [line_busy] line_zero_total_zero_used
           ZeroDivisionError);
    vm_compute; reflexivity.
Defined.

(** ** Looser and tighter options *)

Lemma num_le_bound (x : float) (a a' : number) :
  num_le (Float x) a = true -> bound_le a a' = true ->
  num_le (Float x) a' = true.
Proof.
  destruct a as [z|y], a' as [z'|y']; try discriminate.
  - unfold bound_le. intros H L. apply Z.leb_le in L. revert H.
    unfold num_le, num_compare, compare_float_Z.
    destruct x as [s|s| |s m e]; try discriminate; try (intros H; exact H).
    + destruct (Z.compare_spec 0 z), (Z.compare_spec 0 z');
        try discriminate; try reflexivity; lia.
    + destruct (0 <=? e).
      * destruct (Z.compare_spec (cond_Zopp s (Z.pos m) * 2 ^ e) z),
                 (Z.compare_spec (cond_Zopp s (Z.pos m) * 2 ^ e) z');
          try discriminate; try reflexivity; lia.
      * assert (P : 0 <= 2 ^ (- e)) by (apply Z.pow_nonneg; lia).
        pose proof (Z.mul_le_mono_nonneg_r z z' (2 ^ (- e)) P L).
        destruct (Z.compare_spec (cond_Zopp s (Z.pos m)) (z * 2 ^ (- e))),
                 (Z.compare_spec (cond_Zopp s (Z.pos m)) (z' * 2 ^ (- e)));
          try discriminate; try reflexivity; lia.
  - revert x y y'. num_cases.
Qed.

Lemma num_ge_bound (x : float) (c c' : number) :
  num_ge (Float x) c = true -> bound_le c' c = true ->
  num_ge (Float x) c' = true.
Proof.
  destruct c as [z|y], c' as [z'|y']; try discriminate.
  - unfold bound_le. intros H L. apply Z.leb_le in L. revert H.
    unfold num_ge, num_compare, compare_float_Z.
    destruct x as [s|s| |s m e]; try discriminate; try (intros H; exact H).
    + destruct (Z.compare_spec 0 z), (Z.compare_spec 0 z');
        try discriminate; try reflexivity; lia.
    + destruct (0 <=? e).
      * destruct (Z.compare_spec (cond_Zopp s (Z.pos m) * 2 ^ e) z),
                 (Z.compare_spec (cond_Zopp s (Z.pos m) * 2 ^ e) z');
          try discriminate; try reflexivity; lia.
      * assert (P : 0 <= 2 ^ (- e)) by (apply Z.pow_nonneg; lia).
        pose proof (Z.mul_le_mono_nonneg_r z' z (2 ^ (- e)) P L).
        destruct (Z.compare_spec (cond_Zopp s (Z.pos m)) (z * 2 ^ (- e))),
                 (Z.compare_spec (cond_Zopp s (Z.pos m)) (z' * 2 ^ (- e)));
          try discriminate; try reflexivity; lia.
  - revert x y y'. num_cases.
Qed.

(** X7: loosening the options never removes a GPU from the result:
    with ceilings that are not lower, a floor that is not higher (each
    compared with the bound of the same type it replaces) and exclusion
    lists that exclude no more, the filter returns a list of which the
    former result is a sublist. *)
Theorem looser_options_keep_every_gpu :
  forall (output : string) (a a' b b' c c' : number)
         (d d' e e' : option (list string)) (avail : list GPU.t),
    get_available_gpus output (Some a) (Some b) (Some c) d e = Ok avail ->
    bound_le a a' = true ->
    bound_le b b' = true ->
    bound_le c' c = true ->
    (forall x, In x (or_tuple d') -> In x (or_tuple d)) ->
    (forall x, In x (or_tuple e') -> In x (or_tuple e)) ->
    exists r : list GPU.t,
      get_available_gpus output (Some a') (Some b') (Some c') d' e' = Ok r /\
      sublist avail r /\
      forall g, In g avail -> In g r.
Proof.
  intros output a a' b b' c c' d d' e e' avail H La Lb Lc Sd Se.
  eapply get_available_gpus_weaker; [|exact H].
  intros g. rewrite !is_gpu_available_iff. cbn [default from_option].
  intros (H1 & H2 & H3 & H4 & H5).
  repeat split; eauto using num_le_bound, num_ge_bound.
Qed.

Lemma looser_options_keep_every_gpu_witness :
  exists r : list GPU.t,
    get_available_gpus output_two (Some (Int 100)) (Some (Int 95))
      (Some (Float (coerced "99.5"))) (Some ["7"]) None = Ok r /\
    sublist [gpu_example] r /\
    forall g, In g [gpu_example] -> In g r.
Proof.
  apply (looser_options_keep_every_gpu output_two
           (Int 50) (Int 100) (Int 50) (Int 95)
           (Float (coerced "500")) (Float (coerced "99.5"))
           (Some ["7"; "8"]) (Some ["7"]) (Some ["GPU-none"]) None
           [gpu_example]).
  - vm_compute. reflexivity.
  - reflexivity.
  - reflexivity.
  - vm_compute. reflexivity.
  - simpl. tauto.
  - simpl. tauto.
Defined.

(** ** The listing *)

Lemma no_inversion_attr_lt (attr : sort_attr) (l : list GPU.t) :
  no_inversion attr l ->
  StronglySorted (fun x y => attr_lt attr y x = false) l.
Proof. destruct attr; intros H; exact H. Qed.

Lemma StronglySorted_app_cross {A} (R : A -> A -> Prop) (l1 l2 : list A) :
  StronglySorted R (l1 ++ l2) ->
  forall x y, In x l1 -> In y l2 -> R x y.
Proof.
  induction l1 as [|z l1 IH]; intros S x y Hx Hy; [destruct Hx|].
  simpl in S. inversion S as [|? ? S' F]; subst.
  destruct Hx as [->|Hx].
  - rewrite List.Forall_forall in F. apply F, in_or_app. auto.
  - eapply IH; eauto.
Qed.

Lemma take_Ok {A} (n : Z) (l r : list A) :
  take n l = Ok r -> 0 <= n <= maxsize /\ r = firstn (Z.to_nat n) l.
Proof.
  unfold take, islice.
  destruct (0 <=? n) eqn:E1; destruct (n <=? maxsize) eqn:E2;
    cbn [andb]; try discriminate.
  intros H. injection H as <-. split; [lia|reflexivity].
Qed.

(** X8: when the [ls] branch prints, what it prints is the head of the
    sorted list of the available GPUs: as many records as the limit
    allows, each of them available, and none with a greater key than a
    record left out. *)
Theorem main_ls_shows_the_smallest :
  forall (args : ls_args) (output : string) (shown : list GPU.t),
    main_ls args output = Ok shown ->
    exists avail rest : list GPU.t,
      get_available_gpus output (Some (Int (gpu_util_max args)))
        (Some (Int (mem_util_max args))) (Some (mem_free_min args))
        (exclude_ids args) (exclude_uuids args) = Ok avail /\
      sort_gpus (sort args) avail = shown ++ rest /\
      Permutation (shown ++ rest) avail /\
      length shown = Nat.min (Z.to_nat (limit args)) (length avail) /\
      (forall x y, In x shown -> In y rest -> attr_lt (sort args) y x = false).
Proof.
  intros args output shown H.
  destruct (get_available_gpus output (Some (Int (gpu_util_max args)))
              (Some (Int (mem_util_max args))) (Some (mem_free_min args))
              (exclude_ids args) (exclude_uuids args)) as [avail|e] eqn:A.
  2: { unfold main_ls in H. rewrite A in H. discriminate H. }
  rewrite (main_ls_stages _ _ _ A) in H.
  apply take_Ok in H. destruct H as [L ->].
  exists avail, (skipn (Z.to_nat (limit args)) (sort_gpus (sort args) avail)).
  split; [reflexivity|].
  rewrite firstn_skipn.
  split; [reflexivity|].
  split; [apply sort_gpus_perm|].
  split.
  { rewrite length_firstn, (Permutation_length (sort_gpus_perm _ avail)).
    reflexivity. }
  destruct (available_not_nan _ _ _ _ _ _ _ A) as [G M].
  pose proof (no_inversion_attr_lt _ _
                (sort_gpus_no_inversion (sort args) avail G M)) as S.
  rewrite <- (firstn_skipn (Z.to_nat (limit args))) in S.
  intros x y Hx Hy. exact (StronglySorted_app_cross _ _ _ S x y Hx Hy).
Qed.

Lemma main_ls_shows_the_smallest_witness :
  exists avail rest : list GPU.t,
    get_available_gpus output_busy_first (Some (Int 100)) (Some (Int 100))
      (Some (Int 0)) None None = Ok avail /\
    sort_gpus sort_mem_util avail = [gpu_example] ++ rest /\
    Permutation ([gpu_example] ++ rest) avail /\
    length [gpu_example] = Nat.min (Z.to_nat 1) (length avail) /\
    (forall x y, In x [gpu_example] -> In y rest ->
                 attr_lt sort_mem_util y x = false).
Proof.
  apply (main_ls_shows_the_smallest
           {| limit := 1; mem_free_min := Int 0; mem_util_max := 100;
              gpu_util_max := 100; exclude_ids := None;
              exclude_uuids := None; sort := sort_mem_util |}
           output_busy_first [gpu_example]).
  vm_compute. reflexivity.
Defined.

(** X9: the [ls] branch raises in two cases only: the snapshot cannot be
    parsed, and then the exception is the parser's whatever the limit is;
    or the snapshot is parsed and the limit is negative or above
    [sys.maxsize], and then it is [ValueError]. *)
Theorem main_ls_failures :
  forall (args : ls_args) (output : string) (e : exn),
    main_ls args output = Raise e <->
    get_gpus output = Raise e \/
    (is_ok (get_gpus output) = true /\
     (limit args < 0 \/ maxsize < limit args) /\
     e = ValueError).
Proof.
  intros args output e. unfold main_ls, get_available_gpus.
  destruct (get_gpus output) as [gpus|e'] eqn:G; cbn [mbind result_bind is_ok].
  - unfold take, islice.
    destruct (0 <=? limit args) eqn:E1; destruct (limit args <=? maxsize) eqn:E2;
      cbn [andb]; split.
    all: try (intros H; discriminate H).
    all: try (intros [H|(_ & H & _)]; [discriminate H|lia]).
    all: try (intros H; injection H as <-; right; repeat split; lia).
    all: intros [H|(_ & _ & ->)]; [discriminate H|reflexivity].
  - split.
    + intros H. left. exact H.
    + intros [H|(H & _)]; [exact H|discriminate H].
Qed.

(** ** The UUID map *)

Lemma find_app {A} (p : A -> bool) (l1 l2 : list A) :
  List.find p (l1 ++ l2) =
    match List.find p l1 with
    | Some x => Some x
    | None => List.find p l2
    end.
Proof.
  induction l1 as [|x l1 IH]; [reflexivity|].
  simpl. destruct (p x); [reflexivity|exact IH].
Qed.

Lemma fold_insert_lookup (gpus : list GPU.t) (m0 : gmap string string)
    (u : string) :
  fold_left (fun gpu_map gpu => <[GPU.uuid gpu := GPU.id gpu]> gpu_map) gpus m0
    !! u =
    match last_with_uuid u gpus with
    | Some g => Some (GPU.id g)
    | None => m0 !! u
    end.
Proof.
  revert m0. induction gpus as [|g gpus IH]; intros m0; [reflexivity|].
  cbn [fold_left]. rewrite IH. unfold last_with_uuid. cbn [rev].
  rewrite find_app.
  destruct (List.find _ (rev gpus)); [reflexivity|].
  cbn [List.find]. rewrite lookup_insert.
  destruct (String.eqb_spec (GPU.uuid g) u) as [E|N].
  - rewrite decide_True by exact E. reflexivity.
  - rewrite decide_False by exact N. reflexivity.
Qed.

Lemma last_with_uuid_None (u : string) (gpus : list GPU.t) :
  last_with_uuid u gpus = None <-> forall g, In g gpus -> GPU.uuid g <> u.
Proof.
  unfold last_with_uuid. split.
  - intros H g Hg E.
    pose proof (find_none _ _ H g) as F. rewrite <- in_rev in F.
    specialize (F Hg). cbn in F. apply String.eqb_neq in F. contradiction.
  - intros H. destruct (List.find _ (rev gpus)) as [g|] eqn:F; [|reflexivity].
    apply find_some in F. destruct F as [I E]. rewrite <- in_rev in I.
    apply String.eqb_eq in E. exfalso. exact (H g I E).
Qed.

Lemma last_with_uuid_Some (u : string) (gpus : list GPU.t) (g : GPU.t) :
  last_with_uuid u gpus = Some g -> In g gpus /\ GPU.uuid g = u.
Proof.
  unfold last_with_uuid. intros F. apply find_some in F.
  destruct F as [I E]. rewrite <- in_rev in I. apply String.eqb_eq in E. auto.
Qed.

Lemma NoDup_map_eq {A B} (f : A -> B) (l : list A) (x y : A) :
  List.NoDup (map f l) -> In x l -> In y l -> f x = f y -> x = y.
Proof.
  induction l as [|z l IH]; intros N Hx Hy E; [destruct Hx|].
  cbn [map] in N. apply NoDup_cons_iff in N. destruct N as [N1 N2].
  destruct Hx as [->|Hx], Hy as [->|Hy]; auto.
  - exfalso. apply N1. rewrite E. apply in_map, Hy.
  - exfalso. apply N1. rewrite <- E. apply in_map, Hx.
Qed.

Lemma fold_insert_size (gpus : list GPU.t) (m0 : gmap string string) :
  List.NoDup (map GPU.uuid gpus) ->
  (forall g, In g gpus -> m0 !! GPU.uuid g = None) ->
  size (fold_left (fun gpu_map gpu => <[GPU.uuid gpu := GPU.id gpu]> gpu_map)
          gpus m0)
  = (size m0 + length gpus)%nat.
Proof.
  revert m0. induction gpus as [|g gpus IH]; intros m0 N F.
  - cbn. lia.
  - cbn [map] in N. apply NoDup_cons_iff in N. destruct N as [N1 N2].
    cbn [fold_left length]. rewrite IH; auto.
    + rewrite map_size_insert_None by (apply F; left; reflexivity). lia.
    + intros g' I. rewrite lookup_insert_ne.
      * apply F. right. exact I.
      * intros E. apply N1. rewrite E. apply in_map, I.
Qed.

(** X10: the UUID-to-index map built from a snapshot sends a UUID to the
    index of the last GPU of the snapshot that has it, and has no entry
    for a UUID exactly when no GPU of the snapshot has it. *)
Theorem uuid_map_lookup :
  forall (output : string) (gpus : list GPU.t),
    get_gpus output = Ok gpus ->
    exists m : gmap string string,
      _populate_gpu_uuid_to_id_map output = Ok m /\
      (forall u : string, m !! u = GPU.id <$> last_with_uuid u gpus) /\
      (forall u : string,
         m !! u = None <-> forall g, In g gpus -> GPU.uuid g <> u).
Proof.
  intros output gpus G. unfold _populate_gpu_uuid_to_id_map. rewrite G.
  cbn [mbind result_bind]. eexists. split; [reflexivity|].
  assert (L : forall u,
    fold_left (fun gpu_map gpu => <[GPU.uuid gpu := GPU.id gpu]> gpu_map)
      gpus (∅ : gmap string string) !! u = GPU.id <$> last_with_uuid u gpus).
  { intros u. rewrite fold_insert_lookup.
    destruct (last_with_uuid u gpus); [reflexivity|apply lookup_empty]. }
  split; [exact L|].
  intros u. rewrite L, <- last_with_uuid_None.
  destruct (last_with_uuid u gpus); cbn; split; congruence.
Qed.

Lemma uuid_map_lookup_witness :
  exists m : gmap string string,
    _populate_gpu_uuid_to_id_map output_two = Ok m /\
    (forall u : string,
       m !! u = GPU.id <$> last_with_uuid u [gpu_example; gpu_busy]) /\
    (forall u : string,
       m !! u = None <->
       forall g, In g [gpu_example; gpu_busy] -> GPU.uuid g <> u).
Proof.
  apply (uuid_map_lookup output_two [gpu_example; gpu_busy]).
  vm_compute. reflexivity.
Defined.

(** X11: when the GPUs of the snapshot have distinct UUIDs, the map has
    one entry per GPU and sends the UUID of each GPU to the index of that
    GPU. *)
Theorem uuid_map_of_distinct_uuids :
  forall (output : string) (gpus : list GPU.t),
    get_gpus output = Ok gpus ->
    List.NoDup (map GPU.uuid gpus) ->
    exists m : gmap string string,
      _populate_gpu_uuid_to_id_map output = Ok m /\
      size m = length gpus /\
      forall g, In g gpus -> m !! GPU.uuid g = Some (GPU.id g).
Proof.
  intros output gpus G N. unfold _populate_gpu_uuid_to_id_map. rewrite G.
  cbn [mbind result_bind]. eexists. split; [reflexivity|]. split.
  - rewrite fold_insert_size; auto.
  - intros g I. rewrite fold_insert_lookup.
    destruct (last_with_uuid (GPU.uuid g) gpus) as [g'|] eqn:F.
    + apply last_with_uuid_Some in F. destruct F as [I' E].
      rewrite (NoDup_map_eq GPU.uuid gpus g' g N I' I E). reflexivity.
    + exfalso. rewrite last_with_uuid_None in F. exact (F g I eq_refl).
Qed.

Lemma uuid_map_of_distinct_uuids_witness :
  exists m : gmap string string,
    _populate_gpu_uuid_to_id_map output_two = Ok m /\
    size m = length [gpu_example; gpu_busy] /\
    forall g, In g [gpu_example; gpu_busy] ->
              m !! GPU.uuid g = Some (GPU.id g).
Proof.
  apply (uuid_map_of_distinct_uuids output_two [gpu_example; gpu_busy]).
  - vm_compute. reflexivity.
  - repeat constructor; cbn; intros H;
      repeat (destruct H as [H|H]; [discriminate H|]); exact H.
Defined.

(** ** The process listing *)

(** A process record comes from a line of at least 5 fields whose first
    field is an integer. *)
Lemma get_gpu_proc_inv (line : string) (m : gmap string string)
    (p : GPUProcess.t) :
  get_gpu_proc line m = Ok p ->
  exists v0 v1 v2 v3 v4 rest pid,
    str_split line ", " = v0 :: v1 :: v2 :: v3 :: v4 :: rest /\
    int_of_str v0 = Ok pid /\
    p = GPUProcess.mk pid v1 (dict_get m v2 (VInt (-1))) v2 v3 (coerced v4).
Proof.
  intros H. unfold get_gpu_proc in H.
  destruct (str_split line ", ") as [|v0 l] eqn:E; [discriminate H|].
  cbn [getitem lookup list_lookup mbind result_bind] in H.
  destruct (int_of_str v0) as [pid|e] eqn:P; [|discriminate H].
  cbn [mbind result_bind] in H.
  destruct l as [|v1 [|v2 [|v3 [|v4 rest]]]];
    cbn [getitem lookup list_lookup mbind result_bind] in H;
    try discriminate H.
  rewrite to_float_or_inf_coerced in H. cbn [mbind result_bind] in H.
  injection H as <-. exists v0, v1, v2, v3, v4, rest, pid. auto.
Qed.

(** X12: when the GPU snapshot parses, every process record of the
    listing carries, as its GPU index, the index of the last GPU of the
    snapshot that has the UUID of the process, and the sentinel -1 when
    the snapshot has no GPU with that UUID; there is one record per
    non-blank line of the process text. *)
Theorem process_index_comes_from_the_snapshot :
  forall (procs_output gpus_output : string) (gpus : list GPU.t)
         (processes : list GPUProcess.t),
    get_gpus gpus_output = Ok gpus ->
    get_gpu_processes procs_output gpus_output = Ok processes ->
    length processes = length (record_lines procs_output) /\
    forall p : GPUProcess.t,
      In p processes ->
      GPUProcess.gpu_id p =
        match last_with_uuid (GPUProcess.gpu_uuid p) gpus with
        | Some g => VStr (GPU.id g)
        | None => VInt (-1)
        end.
Proof.
  intros procs_output gpus_output gpus processes G H.
  unfold get_gpu_processes, _populate_gpu_uuid_to_id_map in H.
  rewrite G in H. cbn [mbind result_bind] in H.
  split; [exact (mapM_length _ _ _ H)|].
  intros p I. apply mapM_Ok_Forall2 in H.
  assert (X : exists line,
    get_gpu_proc line
      (fold_left (fun gpu_map gpu => <[GPU.uuid gpu := GPU.id gpu]> gpu_map)
         gpus ∅) = Ok p).
  { clear G. induction H as [|line q ls qs F R IH]; [destruct I|].
    destruct I as [->|I]; eauto. }
  destruct X as (line & X). apply get_gpu_proc_inv in X.
  destruct X as (v0 & v1 & v2 & v3 & v4 & rest & pid & _ & _ & ->).
  cbn [GPUProcess.gpu_id GPUProcess.gpu_uuid]. unfold dict_get.
  rewrite fold_insert_lookup.
  destruct (last_with_uuid v2 gpus); [reflexivity|].
  rewrite lookup_empty. reflexivity.
Qed.

Lemma process_index_comes_from_the_snapshot_witness :
  length [proc_python; proc_blender; proc_train]
    = length (record_lines procs_example) /\
  forall p : GPUProcess.t,
    In p [proc_python; proc_blender; proc_train] ->
    GPUProcess.gpu_id p =
      match last_with_uuid (GPUProcess.gpu_uuid p) [gpu_example; gpu_busy] with
      | Some g => VStr (GPU.id g)
      | None => VInt (-1)
      end.
Proof.
  apply (process_index_comes_from_the_snapshot procs_example output_two
           [gpu_example; gpu_busy] [proc_python; proc_blender; proc_train]);
    vm_compute; reflexivity.
Defined.

(** X13: the process line parser reads the first five fields only: a
    line of more than five fields is accepted, and two lines with the same
    first five fields give the same outcome. A process name that contains
    the separator therefore shifts the columns without any failure. *)
Theorem get_gpu_proc_reads_five_fields :
  forall (line line' : string) (m : gmap string string),
    (5 <= length (str_split line ", "))%nat ->
    firstn 5 (str_split line' ", ") = firstn 5 (str_split line ", ") ->
    get_gpu_proc line' m = get_gpu_proc line m /\
    get_gpu_proc line m <> Raise IndexError.
Proof.
  intros line line' m L E. unfold get_gpu_proc.
  destruct (str_split line ", ") as [|v0 [|v1 [|v2 [|v3 [|v4 rest]]]]];
    try (simpl in L; lia).
  destruct (str_split line' ", ") as [|w0 [|w1 [|w2 [|w3 [|w4 rest']]]]];
    try discriminate E.
  cbn [firstn] in E. injection E as -> -> -> -> ->.
  cbn [getitem lookup list_lookup mbind result_bind].
  split; [reflexivity|].
  destruct (int_of_str v0) as [pid|e] eqn:P; cbn [mbind result_bind].
  - rewrite to_float_or_inf_coerced. discriminate.
  - apply int_of_str_raises in P. subst e. discriminate.
Qed.

Lemma get_gpu_proc_reads_five_fields_witness :
  get_gpu_proc "1234, python, GPU-abc, Tesla, 512" ∅
    = get_gpu_proc "1234, python, GPU-abc, Tesla, 512, more" ∅ /\
  get_gpu_proc "1234, python, GPU-abc, Tesla, 512, more" ∅ <> Raise IndexError.
Proof.
  apply (get_gpu_proc_reads_five_fields
           "1234, python, GPU-abc, Tesla, 512, more"
           "1234, python, GPU-abc, Tesla, 512" ∅).
  - vm_compute. lia.
  - vm_compute. reflexivity.
Defined.

Example process_name_with_separator :
  get_gpu_proc "1234, my, app, GPU-abc, Tesla, 512" {[ "GPU-abc" := "0" ]}
  = Ok (GPUProcess.mk 1234 "my" (VInt (-1)) "app" "GPU-abc" nan).
Proof. vm_compute. reflexivity. Qed.

Example get_gpu_processes_example :
  get_gpu_processes procs_example output_two
    = Ok [proc_python; proc_blender; proc_train] /\
  get_gpu_processes "" output_two = Ok [].
Proof. split; vm_compute; reflexivity. Qed.

(** ** The [ps] branch *)

Lemma get_gpu_processes_ids (procs_output gpus_output : string)
    (m : gmap string string) (processes : list GPUProcess.t) :
  _populate_gpu_uuid_to_id_map gpus_output = Ok m ->
  get_gpu_processes procs_output gpus_output = Ok processes ->
  forall p, In p processes ->
    GPUProcess.gpu_id p = dict_get m (GPUProcess.gpu_uuid p) (VInt (-1)).
Proof.
  intros M H p I. unfold get_gpu_processes in H. rewrite M in H.
  cbn [mbind result_bind] in H. apply mapM_Ok_Forall2 in H.
  assert (X : exists line, get_gpu_proc line m = Ok p).
  { induction H as [|line q ls qs F R IH]; [destruct I|].
    destruct I as [->|I]; eauto. }
  destruct X as (line & X). apply get_gpu_proc_inv in X.
  destruct X as (v0 & v1 & v2 & v3 & v4 & rest & pid & _ & _ & ->).
  reflexivity.
Qed.

Lemma value_in_dict_get (m : gmap string string) (u : string)
    (l : list string) :
  value_in (dict_get m u (VInt (-1))) l = true <->
  exists s, m !! u = Some s /\ In s l.
Proof.
  unfold dict_get. destruct (m !! u) as [s|]; cbn [value_in].
  - rewrite str_in_In. split; [eauto|]. intros (s' & E & I). congruence.
  - split; [discriminate|]. intros (s' & E & _). discriminate.
Qed.

Lemma filter_is_sublist {A} (p : A -> bool) (l : list A) :
  sublist (List.filter p l) l.
Proof.
  induction l as [|x l IH]; simpl; [constructor|].
  destruct (p x); constructor; exact IH.
Qed.

(** X14: with a non-empty list of ids, the [ps] branch shows, in the
    order of the listing, exactly the processes whose UUID the map of the
    snapshot sends to one of the ids; the list of UUIDs is not looked at,
    and a process whose GPU is unknown (index -1) is never shown, whatever
    the ids are. *)
Theorem main_ps_ids_filter :
  forall (i : string) (l : list string) (x : option (list string))
         (procs_output gpus_output : string) (m : gmap string string)
         (processes : list GPUProcess.t),
    _populate_gpu_uuid_to_id_map gpus_output = Ok m ->
    get_gpu_processes procs_output gpus_output = Ok processes ->
    exists shown : list GPUProcess.t,
      main_ps {| ids := Some (i :: l); uuids := x |} procs_output gpus_output
        = Ok shown /\
      sublist shown processes /\
      (forall p : GPUProcess.t,
         In p shown <->
         In p processes /\
         exists s, m !! GPUProcess.gpu_uuid p = Some s /\ In s (i :: l)) /\
      (forall p : GPUProcess.t,
         In p shown -> GPUProcess.gpu_id p <> VInt (-1)).
Proof.
  intros i l x procs_output gpus_output m processes M H.
  pose proof (get_gpu_processes_ids _ _ _ _ M H) as D.
  unfold main_ps. rewrite H. cbn [mbind result_bind ids].
  eexists. split; [reflexivity|]. split; [apply filter_is_sublist|].
  assert (C : forall p,
    In p (List.filter
            (fun proc => value_in (GPUProcess.gpu_id proc) (i :: l)) processes)
    <-> In p processes /\
        exists s, m !! GPUProcess.gpu_uuid p = Some s /\ In s (i :: l)).
  { intros p. rewrite filter_In. split.
    - intros [I V]. split; [exact I|].
      rewrite (D p I) in V. apply value_in_dict_get in V. exact V.
    - intros [I V]. split; [exact I|].
      rewrite (D p I). apply value_in_dict_get. exact V. }
  split; [exact C|].
  intros p I. apply C in I. destruct I as [I (s & E & _)].
  rewrite (D p I). unfold dict_get. rewrite E. discriminate.
Qed.

Lemma main_ps_ids_filter_witness :
  exists shown : list GPUProcess.t,
    main_ps {| ids := Some ["1"; "-1"]; uuids := Some ["GPU-abc"] |}
      procs_example output_two = Ok shown /\
    sublist shown [proc_python; proc_blender; proc_train] /\
    (forall p : GPUProcess.t,
       In p shown <->
       In p [proc_python; proc_blender; proc_train] /\
       exists s,
         ({[ "GPU-abc" := "0"; "GPU-def" := "1" ]} : gmap string string)
           !! GPUProcess.gpu_uuid p = Some s /\
         In s ["1"; "-1"]) /\
    (forall p : GPUProcess.t,
       In p shown -> GPUProcess.gpu_id p <> VInt (-1)).
Proof.
  apply (main_ps_ids_filter "1" ["-1"] (Some ["GPU-abc"]) procs_example
           output_two {[ "GPU-abc" := "0"; "GPU-def" := "1" ]}
           [proc_python; proc_blender; proc_train]).
  - vm_compute. reflexivity.
  - vm_compute. reflexivity.
Defined.

Example main_ps_example :
  main_ps {| ids := Some ["1"; "-1"]; uuids := Some ["GPU-abc"] |}
    procs_example output_two = Ok [proc_blender] /\
  main_ps {| ids := None; uuids := Some ["GPU-abc"; "GPU-gone"] |}
    procs_example output_two = Ok [proc_python; proc_train] /\
  main_ps {| ids := Some []; uuids := None |}
    procs_example output_two = Ok [proc_python; proc_blender; proc_train].
Proof. repeat split; vm_compute; reflexivity. Qed.

(** X15: the two filters of the [ps] branch agree: when the map of the
    snapshot sends exactly one UUID to an index, filtering by that index
    shows the same processes as filtering by that UUID. *)
Theorem main_ps_id_and_uuid_filters_agree :
  forall (procs_output gpus_output : string) (m : gmap string string)
         (i u : string) (x : option (list string)),
    _populate_gpu_uuid_to_id_map gpus_output = Ok m ->
    (forall u' : string, m !! u' = Some i <-> u' = u) ->
    main_ps {| ids := Some [i]; uuids := x |} procs_output gpus_output
    = main_ps {| ids := None; uuids := Some [u] |} procs_output gpus_output.
Proof.
  intros procs_output gpus_output m i u x M U.
  unfold main_ps.
  destruct (get_gpu_processes procs_output gpus_output) as [processes|e] eqn:H;
    [|reflexivity].
  cbn [mbind result_bind ids uuids]. f_equal.
  pose proof (get_gpu_processes_ids _ _ _ _ M H) as D.
  apply List.filter_ext_in. intros p I. rewrite (D p I).
  destruct (value_in (dict_get m (GPUProcess.gpu_uuid p) (VInt (-1))) [i]) eqn:V.
  - apply value_in_dict_get in V. destruct V as (s & E & [<-|[]]).
    apply U in E. symmetry. apply str_in_In. left. auto.
  - symmetry. apply not_true_is_false. intros S. apply str_in_In in S.
    destruct S as [S|[]]. rewrite <- S in V.
    assert (V' : value_in (dict_get m u (VInt (-1))) [i] = true).
    { apply value_in_dict_get. exists i.
      split; [apply U; reflexivity|left; reflexivity]. }
    congruence.
Qed.

Lemma main_ps_id_and_uuid_filters_agree_witness :
  main_ps {| ids := Some ["1"]; uuids := Some ["GPU-abc"] |}
    procs_example output_two
  = main_ps {| ids := None; uuids := Some ["GPU-def"] |}
      procs_example output_two.
Proof.
  apply (main_ps_id_and_uuid_filters_agree procs_example output_two
           {[ "GPU-abc" := "0"; "GPU-def" := "1" ]} "1" "GPU-def"
           (Some ["GPU-abc"])).
  - vm_compute. reflexivity.
  - intros u'. split.
    + intros H.
      destruct (decide (u' = "GPU-abc")) as [E|N].
      { subst u'. vm_compute in H. discriminate H. }
      rewrite lookup_insert_ne in H by (intros E; apply N; symmetry; exact E).
      destruct (decide (u' = "GPU-def")) as [E|N']; [exact E|].
      rewrite lookup_singleton_ne in H by (intros E; apply N'; symmetry; exact E).
      discriminate H.
    + intros ->. vm_compute. reflexivity.
Defined.

(** ** Ids written in digits *)

Lemma fold_digits_acc (s : list ascii) (acc : Z) :
  fold_left (fun a c => 10 * a + digit_value c) s acc
  = acc * 10 ^ Z.of_nat (length s)
    + fold_left (fun a c => 10 * a + digit_value c) s 0.
Proof.
  revert acc. induction s as [|c s IH]; intros acc.
  - cbn. lia.
  - cbn [fold_left length]. rewrite (IH (10 * acc + digit_value c)).
    rewrite (IH (10 * 0 + digit_value c)).
    rewrite Nat2Z.inj_succ, Z.pow_succ_r by lia. lia.
Qed.

Lemma digit_value_range (c : ascii) :
  is_digit c = true -> 0 <= digit_value c <= 9.
Proof.
  unfold is_digit, digit_value. intros H.
  apply andb_true_iff in H. destruct H as [H1 H2].
  apply Z.leb_le in H1. apply Z.leb_le in H2. lia.
Qed.

Lemma digits_to_Z_range (s : list ascii) :
  forallb is_digit s = true ->
  0 <= digits_to_Z s < 10 ^ Z.of_nat (length s).
Proof.
  unfold digits_to_Z. induction s as [|c s IH]; intros D.
  - cbn. lia.
  - cbn [forallb] in D. apply andb_true_iff in D. destruct D as [Dc D].
    cbn [fold_left length]. rewrite fold_digits_acc.
    rewrite Nat2Z.inj_succ, Z.pow_succ_r by lia.
    pose proof (digit_value_range c Dc). specialize (IH D).
    assert (0 < 10 ^ Z.of_nat (length s)) by (apply Z.pow_pos_nonneg; lia).
    nia.
Qed.

(** Digit strings of the same length compare as the numbers they write. *)
Lemma str_lt_digits (a b : string) :
  is_digits a = true -> is_digits b = true ->
  String.length a = String.length b ->
  str_lt a b = (decimal_value a <? decimal_value b).
Proof.
  unfold is_digits, decimal_value. revert b.
  induction a as [|x a IH]; intros [|y b] Da Db L; try discriminate L.
  - reflexivity.
  - cbn [list_ascii_of_string forallb] in Da, Db.
    apply andb_true_iff in Da. destruct Da as [Dx Da].
    apply andb_true_iff in Db. destruct Db as [Dy Db].
    injection L as L.
    rewrite str_lt_lexicographic, (IH b Da Db L).
    cbn [list_ascii_of_string]. unfold digits_to_Z. cbn [fold_left].
    rewrite (fold_digits_acc _ (10 * 0 + digit_value x)).
    rewrite (fold_digits_acc _ (10 * 0 + digit_value y)).
    assert (La : length (list_ascii_of_string a) = length (list_ascii_of_string b)).
    { clear -L. revert b L. induction a as [|? a IH]; intros [|? b] L;
        try discriminate L; [reflexivity|].
      injection L as L. cbn. f_equal. auto. }
    rewrite La.
    pose proof (digits_to_Z_range _ Da) as Ra.
    pose proof (digits_to_Z_range _ Db) as Rb.
    rewrite La in Ra. unfold digits_to_Z in Ra, Rb.
    pose proof (digit_value_range x Dx). pose proof (digit_value_range y Dy).
    unfold digit_value in *.
    set (P := 10 ^ Z.of_nat (length (list_ascii_of_string b))) in *.
    set (va := fold_left _ (list_ascii_of_string a) 0) in *.
    set (vb := fold_left _ (list_ascii_of_string b) 0) in *.
    destruct (Z.ltb_spec (code x) (code y)) as [C|C]; cbn [orb].
    + symmetry. apply Z.ltb_lt. nia.
    + destruct (Z.eqb_spec (code x) (code y)) as [E|N]; cbn [andb].
      * rewrite E. destruct (Z.ltb_spec va vb), (Z.ltb_spec
          ((10 * 0 + (code y - 48)) * P + va) ((10 * 0 + (code y - 48)) * P + vb));
          try reflexivity; lia.
      * symmetry. apply Z.ltb_ge. nia.
Qed.

Lemma StronglySorted_weaken {A} (R R' : A -> A -> Prop) (l : list A) :
  (forall x y, In x l -> In y l -> R x y -> R' x y) ->
  StronglySorted R l -> StronglySorted R' l.
Proof.
  induction l as [|z l IH]; intros W S; [constructor|].
  inversion S as [|? ? S' F]; subst. constructor.
  - apply IH; [|exact S']. intros x y Hx Hy. apply W; right; assumption.
  - rewrite List.Forall_forall in F |- *. intros y Hy.
    apply W; [left; reflexivity|right; exact Hy|apply F, Hy].
Qed.

(** X16: ids written with the same number of decimal digits are sorted
    in numeric order: sorting by id leaves no GPU before one with a
    smaller number. (With at most ten GPUs the ids have one digit.) *)
Theorem sort_by_id_is_numeric_on_equal_lengths :
  forall (n : nat) (l : list GPU.t),
    Forall (fun g => is_digits (GPU.id g) = true /\
                     String.length (GPU.id g) = n) l ->
    Permutation (sort_gpus sort_id l) l /\
    StronglySorted
      (fun x y => decimal_value (GPU.id x) <= decimal_value (GPU.id y))
      (sort_gpus sort_id l).
Proof.
  intros n l F. split; [apply sort_gpus_perm|].
  assert (S : StronglySorted
                (fun x y => str_lt (GPU.id y) (GPU.id x) = false)
                (sort_gpus sort_id l)).
  { apply (ascending_strongly str_lt GPU.id (fun _ => True)).
    - intros a b c _ _ _. apply str_ge_trans.
    - apply List.Forall_forall. auto.
    - apply (sort_gpus_in_order sort_id). }
  assert (F' : Forall (fun g => is_digits (GPU.id g) = true /\
                               String.length (GPU.id g) = n)
                 (sort_gpus sort_id l)).
  { eapply Permutation_Forall; [|exact F]. symmetry. apply sort_gpus_perm. }
  rewrite List.Forall_forall in F'.
  eapply StronglySorted_weaken; [|exact S].
  intros x y Hx Hy R. cbn beta in R.
  destruct (F' x Hx) as [Dx Lx]. destruct (F' y Hy) as [Dy Ly].
  rewrite (str_lt_digits _ _ Dy Dx) in R by congruence.
  apply Z.ltb_ge in R. exact R.
Qed.

Lemma sort_by_id_is_numeric_on_equal_lengths_witness :
  Permutation (sort_gpus sort_id [gpu_busy; gpu_example])
    [gpu_busy; gpu_example] /\
  StronglySorted
    (fun x y => decimal_value (GPU.id x) <= decimal_value (GPU.id y))
    (sort_gpus sort_id [gpu_busy; gpu_example]).
Proof.
  apply (sort_by_id_is_numeric_on_equal_lengths 1 [gpu_busy; gpu_example]).
  repeat constructor.
Defined.

(** ** Tokens written in digits *)

Lemma digit_cases (c : ascii) :
  is_digit c = true ->
  c = "0"%char \/ c = "1"%char \/ c = "2"%char \/ c = "3"%char \/
  c = "4"%char \/ c = "5"%char \/ c = "6"%char \/ c = "7"%char \/
  c = "8"%char \/ c = "9"%char.
Proof.
  destruct c as [[] [] [] [] [] [] [] []]; intros H;
    try (vm_compute in H; discriminate H); auto 12.
Qed.

Lemma digit_not_c_space (c : ascii) : is_digit c = true -> is_c_space c = false.
Proof. intros H. ten_cases (digit_cases c H); reflexivity. Qed.

Lemma lstrip_digits (s : list ascii) :
  forallb is_digit s = true -> lstrip_with is_c_space s = s.
Proof.
  destruct s as [|c s]; [reflexivity|]. cbn [forallb]. intros H.
  apply andb_true_iff in H. destruct H as [H _].
  cbn [lstrip_with]. rewrite (digit_not_c_space c H). reflexivity.
Qed.

Lemma strip_digits (s : list ascii) :
  forallb is_digit s = true -> strip_with is_c_space s = s.
Proof.
  intros H. unfold strip_with. rewrite (lstrip_digits s H).
  rewrite lstrip_digits by (rewrite forallb_rev; exact H).
  apply rev_involutive.
Qed.

Lemma parse_sign_digit (c : ascii) (s : list ascii) :
  is_digit c = true -> parse_sign (c :: s) = (false, c :: s).
Proof. intros H. ten_cases (digit_cases c H); reflexivity. Qed.

Lemma span_digits_all (s : list ascii) :
  forallb is_digit s = true -> span_digits s = (s, []).
Proof.
  induction s as [|c s IH]; [reflexivity|]. cbn [forallb]. intros H.
  apply andb_true_iff in H. destruct H as [Hc H].
  cbn [span_digits]. rewrite Hc, (IH H). reflexivity.
Qed.

Lemma remove_underscores_digits (s : list ascii) (prev : option ascii) :
  match prev with Some p => is_digit p = true | None => True end ->
  forallb is_digit s = true ->
  remove_underscores prev s = Some s.
Proof.
  revert prev. induction s as [|c s IH]; intros prev P D.
  - destruct prev as [p|]; [|reflexivity]. ten_cases (digit_cases p P); reflexivity.
  - cbn [forallb] in D. apply andb_true_iff in D. destruct D as [Dc D].
    pose proof (IH (Some c) Dc D) as R.
    destruct prev as [p|].
    + ten_cases (digit_cases p P); ten_cases (digit_cases c Dc); cbn; rewrite R; reflexivity.
    + ten_cases (digit_cases c Dc); cbn; rewrite R; reflexivity.
Qed.

Lemma int_digits_all (s : list ascii) (acc : Z) :
  forallb is_digit s = true ->
  int_digits true s acc
  = Some (fold_left (fun a c => 10 * a + digit_value c) s acc).
Proof.
  revert acc. induction s as [|c s IH]; intros acc D; [reflexivity|].
  cbn [forallb] in D. apply andb_true_iff in D. destruct D as [Dc D].
  cbn [int_digits fold_left]. rewrite Dc. apply IH, D.
Qed.

Lemma is_digits_nonempty (token : string) :
  token <> "" -> exists c s, list_ascii_of_string token = c :: s.
Proof. destruct token as [|c s]; [congruence|]. cbn. eauto. Qed.

(** An unsigned integer token is read by [int] as the number it
    writes. *)
Lemma int_of_str_digits (token : string) :
  is_digits token = true -> token <> "" ->
  int_of_str token = Ok (decimal_value token).
Proof.
  unfold is_digits, decimal_value, int_of_str. intros D N.
  rewrite (strip_digits _ D).
  destruct (is_digits_nonempty token N) as (c & s & E). rewrite E in *.
  cbn [forallb] in D. apply andb_true_iff in D. destruct D as [Dc D].
  rewrite (parse_sign_digit c s Dc). cbn [int_digits]. rewrite Dc.
  rewrite (int_digits_all s _ D). reflexivity.
Qed.

(** ... and by [float] as the conversion of that number. *)
Lemma float_of_str_digits (token : string) :
  is_digits token = true -> token <> "" ->
  float_of_str token = Ok (float_of_Z (decimal_value token)).
Proof.
  unfold is_digits, decimal_value, float_of_str. intros D N.
  rewrite (strip_digits _ D).
  destruct (is_digits_nonempty token N) as (c & s & E). rewrite E in *.
  rewrite (remove_underscores_digits (c :: s) None I D).
  pose proof (digits_to_Z_range _ D) as R.
  cbn [forallb] in D. apply andb_true_iff in D. destruct D as [Dc Ds].
  rewrite (parse_sign_digit c s Dc).
  assert (P : parse_decimal (c :: s) = Some (digits_to_Z (c :: s), 0, [])).
  { unfold parse_decimal.
    rewrite (span_digits_all (c :: s))
      by (cbn [forallb]; rewrite Dc; exact Ds).
    rewrite app_nil_r. reflexivity. }
  rewrite P. f_equal. unfold float_of_decimal, float_of_Z, binary_normalize.
  destruct (digits_to_Z (c :: s)) as [|d|d]; [reflexivity| |lia].
  cbn [Z.leb Z.compare Z.pow Z.to_pos Z.pow_pos Pos.iter Z.mul Pos.mul].
  rewrite Pos.mul_1_r. reflexivity.
Qed.

(** ** Integers that floats hold exactly *)

Lemma digits2_iter_xO (m k : positive) :
  digits2_pos (Pos.iter xO m k) = (digits2_pos m + k)%positive.
Proof.
  induction k as [|k IH] using Pos.peano_ind.
  - cbn. lia.
  - rewrite Pos.iter_succ. cbn [digits2_pos]. rewrite IH. lia.
Qed.

Lemma Zpos_iter_xO (m k : positive) :
  Z.pos (Pos.iter xO m k) = Z.pos m * 2 ^ Z.pos k.
Proof.
  induction k as [|k IH] using Pos.peano_ind.
  - cbn. lia.
  - rewrite Pos.iter_succ, Pos2Z.inj_succ, Z.pow_succ_r by lia.
    rewrite Pos2Z.inj_xO, IH. lia.
Qed.

Lemma digits2_lower (m : positive) :
  2 ^ (Z.pos (digits2_pos m) - 1) <= Z.pos m.
Proof.
  induction m as [m IH|m IH|]; cbn [digits2_pos].
  - rewrite Pos2Z.inj_succ.
    replace (Z.succ (Z.pos (digits2_pos m)) - 1)
      with (Z.succ (Z.pos (digits2_pos m) - 1)) by lia.
    rewrite Z.pow_succ_r by lia. lia.
  - rewrite Pos2Z.inj_succ.
    replace (Z.succ (Z.pos (digits2_pos m)) - 1)
      with (Z.succ (Z.pos (digits2_pos m) - 1)) by lia.
    rewrite Z.pow_succ_r by lia. lia.
  - cbn. lia.
Qed.

Lemma digits2_small (m : positive) :
  Z.pos m < 2 ^ 53 -> Z.pos (digits2_pos m) <= 53.
Proof.
  intros H. pose proof (digits2_lower m) as L.
  destruct (Z.le_gt_cases (Z.pos (digits2_pos m)) 53) as [O|O]; [exact O|].
  exfalso.
  assert (2 ^ 53 <= 2 ^ (Z.pos (digits2_pos m) - 1))
    by (apply Z.pow_le_mono_r; lia).
  lia.
Qed.

Lemma binary_round_aux_exact (mz : positive) (ez : Z) :
  Z.pos (digits2_pos mz) = 53 -> -1074 <= ez <= 971 ->
  binary_round_aux prec emax false (Z.pos mz) ez loc_Exact
  = S754_finite false mz ez.
Proof.
  intros H R.
  assert (E : fexp prec emax (Zdigits2 (Z.pos mz) + ez) - ez = 0).
  { cbn [Zdigits2]. rewrite H. unfold fexp, emin, prec, emax. lia. }
  unfold binary_round_aux, shr_fexp. rewrite E.
  cbn [shr shr_record_of_loc loc_of_shr_record shr_m round_nearest_even].
  rewrite E.
  cbn [shr shr_record_of_loc loc_of_shr_record shr_m round_nearest_even].
  destruct (ez <=? emax - prec) eqn:L; [reflexivity|].
  unfold emax, prec in L. lia.
Qed.

(** The float of a positive integer of at most 53 bits: its digits,
    shifted to the left to fill the mantissa. *)
Lemma float_of_Z_small (m : positive) :
  Z.pos (digits2_pos m) <= 53 ->
  float_of_Z (Z.pos m) =
    match 53 - Z.pos (digits2_pos m) with
    | Z.pos k => S754_finite false (Pos.iter xO m k) (Z.neg k)
    | _ => S754_finite false m 0
    end.
Proof.
  intros H. unfold float_of_Z, binary_normalize, binary_round, shl_align.
  assert (E : fexp prec emax (Z.pos (digits2_pos m) + 0) - 0
              = Z.pos (digits2_pos m) - 53).
  { unfold fexp, emin, prec, emax. lia. }
  rewrite E.
  destruct (53 - Z.pos (digits2_pos m)) as [|k|k] eqn:K; [| |lia].
  - replace (Z.pos (digits2_pos m) - 53) with 0 by lia.
    apply binary_round_aux_exact; lia.
  - replace (Z.pos (digits2_pos m) - 53) with (Z.neg k) by lia.
    replace (fexp prec emax (Z.pos (digits2_pos m) + 0)) with (Z.neg k)
      by (unfold fexp, emin, prec, emax; lia).
    apply binary_round_aux_exact; [rewrite digits2_iter_xO|]; lia.
Qed.

(** A non-negative integer below 2^53 and its float compare in the same
    way with every integer. *)
Lemma float_of_Z_compare (n z : Z) :
  0 <= n < 2 ^ 53 ->
  compare_float_Z (float_of_Z n) z = Some (n ?= z).
Proof.
  intros R. destruct n as [|m|m]; [reflexivity| |lia].
  rewrite (float_of_Z_small m) by (apply digits2_small; lia).
  destruct (53 - Z.pos (digits2_pos m)) as [|k|k] eqn:K.
  - cbn. rewrite Z.mul_1_r. reflexivity.
  - unfold compare_float_Z, cond_Zopp.
    change (0 <=? Z.neg k) with false. cbv iota.
    change (- Z.neg k) with (Z.pos k).
    rewrite Zpos_iter_xO. f_equal.
    assert (P : 0 < 2 ^ Z.pos k) by (apply Z.pow_pos_nonneg; lia).
    destruct (Z.compare_spec (Z.pos m * 2 ^ Z.pos k) (z * 2 ^ Z.pos k)),
             (Z.compare_spec (Z.pos m) z); try reflexivity; nia.
  - cbn. rewrite Z.mul_1_r. reflexivity.
Qed.

Lemma digit_token_coerced (token : string) :
  is_digits token = true -> token <> "" ->
  coerced token = float_of_Z (decimal_value token).
Proof.
  intros D N. unfold coerced. rewrite (float_of_str_digits token D N).
  reflexivity.
Qed.

Lemma digit_token_compare (token : string) (z : Z) :
  is_digits token = true -> token <> "" -> decimal_value token < 2 ^ 53 ->
  num_compare (Float (coerced token)) (Int z)
  = Some (decimal_value token ?= z).
Proof.
  intros D N B. rewrite (digit_token_coerced token D N).
  cbn [num_compare]. apply float_of_Z_compare.
  pose proof (digits_to_Z_range _ D). unfold decimal_value in *. lia.
Qed.

(** X17: a token made of at most 4300 decimal digits (the most that
    [int] accepts) that writes a number below 2^53 is read without
    rounding: [int] reads the number, field coercion
    reads a float that compares with every integer exactly as the number
    does, so that [<=] and [>=] against an integer bound are the integer
    comparisons. *)
Theorem integer_token_is_read_exactly :
  forall token : string,
    is_digits token = true ->
    token <> "" ->
    (String.length token <= 4300)%nat ->
    decimal_value token < 2 ^ 53 ->
    int_of_str token = Ok (decimal_value token) /\
    exists x : float,
      to_float_or_inf token = Ok x /\
      forall z : Z,
        num_compare (Float x) (Int z) = Some (decimal_value token ?= z) /\
        num_le (Float x) (Int z) = (decimal_value token <=? z) /\
        num_ge (Float x) (Int z) = (decimal_value token >=? z).
Proof.
  intros token D N _ B. split; [apply int_of_str_digits; assumption|].
  exists (coerced token). split; [apply to_float_or_inf_coerced|].
  intros z. pose proof (digit_token_compare token z D N B) as C.
  split; [exact C|]. unfold num_le, num_ge, Z.leb, Z.geb. rewrite C.
  destruct (decimal_value token ?= z); auto.
Qed.

Lemma integer_token_is_read_exactly_witness :
  int_of_str "8000" = Ok (decimal_value "8000") /\
  exists x : float,
    to_float_or_inf "8000" = Ok x /\
    forall z : Z,
      num_compare (Float x) (Int z) = Some (decimal_value "8000" ?= z) /\
      num_le (Float x) (Int z) = (decimal_value "8000" <=? z) /\
      num_ge (Float x) (Int z) = (decimal_value "8000" >=? z).
Proof.
  apply (integer_token_is_read_exactly "8000").
  - reflexivity.
  - discriminate.
  - cbn. lia.
  - vm_compute. reflexivity.
Defined.

(** X18: for a GPU whose compute-utilisation field is written in digits
    (as the telemetry tool prints it), the ceiling of the command line,
    an integer, is applied to the number the field writes: the GPU passes
    the compute criterion exactly when that number is at most the
    ceiling. *)
Theorem integer_ceiling_is_applied_to_the_number :
  forall (line : string) (g : GPU.t) (token : string),
    get_gpu line = Ok g ->
    str_split line ", " !! 2%nat = Some token ->
    is_digits token = true ->
    token <> "" ->
    decimal_value token < 2 ^ 53 ->
    forall ceiling : Z,
      num_le (Float (GPU.gpu_util g)) (Int ceiling)
      = (decimal_value token <=? ceiling).
Proof.
  intros line g token Hg Ht D N B ceiling.
  destruct (Nat.lt_ge_cases (length (str_split line ", ")) 12) as [Hs|Hl].
  { rewrite (get_gpu_short line Hs) in Hg. discriminate. }
  destruct (twelve_fields _ Hl)
    as (v0 & v1 & v2 & v3 & v4 & v5 & v6 & v7 & v8 & v9 & v10 & v11 & rest & E).
  rewrite (get_gpu_fields line _ _ _ _ _ _ _ _ _ _ _ _ _ E), GPU_init_spec in Hg.
  destruct (is_zero (coerced v3)); [discriminate|].
  injection Hg as <-. rewrite E in Ht. cbn [lookup list_lookup] in Ht.
  injection Ht as ->. cbn [GPU.gpu_util].
  unfold num_le, Z.leb. rewrite (digit_token_compare token ceiling D N B).
  destruct (decimal_value token ?= ceiling); reflexivity.
Qed.

Lemma integer_ceiling_is_applied_to_the_number_witness :
  num_le (Float (GPU.gpu_util gpu_busy)) (Int 89)
  = (decimal_value "90" <=? 89).
Proof.
  apply (integer_ceiling_is_applied_to_the_number line_busy gpu_busy "90").
  - vm_compute. reflexivity.
  - vm_compute. reflexivity.
  - reflexivity.
  - discriminate.
  - vm_compute. reflexivity.
Defined.

(** ** Splitting loses nothing *)

Lemma prefix_app (t s : string) :
  String.prefix t s = true -> exists r, s = t +:+ r.
Proof.
  revert s. induction t as [|a t IH]; intros s H.
  - exists s. reflexivity.
  - destruct s as [|b s]; [discriminate H|].
    cbn [String.prefix] in H.
    destruct (ascii_dec a b) as [->|]; [|discriminate H].
    destruct (IH s H) as (r & ->). exists r. reflexivity.
Qed.

Lemma split_from_skip (sep t r cur : string) :
  split_from sep (t +:+ r) (String.length t) cur = split_from sep r 0 cur.
Proof.
  induction t as [|a t IH]; [reflexivity|].
  rewrite str_app_cons. cbn [String.length split_from]. exact IH.
Qed.

Lemma str_join_cons (sep p : string) (l : list string) :
  l <> [] -> str_join sep (p :: l) = p +:+ sep +:+ str_join sep l.
Proof. destruct l; [congruence|reflexivity]. Qed.

Lemma str_length_app (a b : string) :
  String.length (a +:+ b) = (String.length a + String.length b)%nat.
Proof.
  induction a as [|c a IH]; [reflexivity|].
  rewrite str_app_cons. cbn [String.length]. rewrite IH. reflexivity.
Qed.

Lemma join_split_from (sep : string) (n : nat) (s cur : string) :
  sep <> "" ->
  (String.length s <= n)%nat ->
  str_join sep (split_from sep s 0 cur) = cur +:+ s.
Proof.
  intros N. revert s cur. induction n as [|n IH]; intros s cur L.
  - destruct s; [|cbn in L; lia]. cbn. rewrite str_app_nil_r. reflexivity.
  - destruct s as [|c s]; [cbn; rewrite str_app_nil_r; reflexivity|].
    cbn [split_from].
    destruct (String.prefix sep (String c s)) eqn:P.
    + destruct sep as [|c' sep']; [congruence|].
      cbn [String.prefix] in P.
      destruct (ascii_dec c' c) as [->|]; [|discriminate P].
      destruct (prefix_app _ _ P) as (r & ->).
      replace (String.length (String c sep') - 1)%nat
        with (String.length sep') by (cbn [String.length]; lia).
      rewrite split_from_skip.
      rewrite str_join_cons by apply split_from_nonempty.
      rewrite IH.
      * rewrite str_app_nil_l, str_app_cons. reflexivity.
      * cbn [String.length] in L. rewrite str_length_app in L. lia.
    + rewrite IH by (cbn [String.length] in L; lia).
      rewrite str_app_assoc. reflexivity.
Qed.

(** X19: splitting loses nothing: the fields of a line, joined again by
    the separator, are the line, and the lines of a text, joined again by
    the line feed, are the text; and a split always yields at least one
    piece. *)
Theorem split_then_join :
  (forall line : string, str_join ", " (str_split line ", ") = line) /\
  (forall output : string,
     str_join linesep (str_split output linesep) = output) /\
  (forall s sep : string, str_split s sep <> []).
Proof.
  split; [|split].
  - intros line. unfold str_split.
    rewrite (join_split_from ", " (String.length line));
      [reflexivity|discriminate|lia].
  - intros output. unfold str_split.
    rewrite (join_split_from linesep (String.length output));
      [reflexivity|discriminate|lia].
  - intros s sep. apply split_from_nonempty.
Qed.

(** ** Memory that is full or unused *)

Lemma div_eucl_self_scaled (m : positive) :
  Z.div_eucl (Z.shiftl (Z.pos m) 53) (Z.pos m) = (2 ^ 53, 0).
Proof.
  rewrite Z.shiftl_mul_pow2 by lia.
  rewrite (surjective_pairing (Z.div_eucl (Z.pos m * 2 ^ 53) (Z.pos m))).
  change (fst (Z.div_eucl (Z.pos m * 2 ^ 53) (Z.pos m)))
    with (Z.pos m * 2 ^ 53 / Z.pos m).
  change (snd (Z.div_eucl (Z.pos m * 2 ^ 53) (Z.pos m)))
    with ((Z.pos m * 2 ^ 53) mod Z.pos m).
  rewrite (Z.mul_comm (Z.pos m)), Z.div_mul, Z.mod_mul by lia.
  reflexivity.
Qed.

Lemma new_location_zero (m : Z) : new_location m 0 = loc_Exact.
Proof. unfold new_location. destruct (Z.even m); reflexivity. Qed.

(** A finite float divided by itself is 1.0. *)
Lemma fdiv_self (s : bool) (m : positive) (e : Z) :
  fdiv (S754_finite s m e) (S754_finite s m e) = float_1.
Proof.
  unfold fdiv, SFdiv, SFdiv_core_binary.
  replace (Z.min (fexp prec emax
                    (Zdigits2 (Z.pos m) + e - (Zdigits2 (Z.pos m) + e)))
                 (e - e)) with (-53)
    by (unfold fexp, emin, prec, emax; lia).
  replace (e - e - -53) with 53 by lia.
  rewrite div_eucl_self_scaled, new_location_zero.
  destruct s; reflexivity.
Qed.

(** X20: at the two ends of the scale the memory utilisation is exact:
    a GPU whose memory used is its memory total (finite, not zero) has
    the utilisation 100.0 and passes the ceiling 100; a GPU with no
    memory used (and such a total) has the utilisation zero and passes
    the ceiling 0. *)
Theorem mem_util_at_the_ends :
  forall (line : string) (g : GPU.t) (s : bool) (m : positive) (e : Z),
    get_gpu line = Ok g ->
    GPU.mem_total g = S754_finite s m e ->
    (GPU.mem_used g = GPU.mem_total g ->
     GPU.mem_util g = float_100 /\
     num_le (Float (GPU.mem_util g)) (Int 100) = true /\
     num_le (Float (GPU.mem_util g)) (Int 99) = false) /\
    (is_zero (GPU.mem_used g) = true ->
     is_zero (GPU.mem_util g) = true /\
     num_le (Float (GPU.mem_util g)) (Int 0) = true).
Proof.
  intros line g s m e Hg T.
  destruct (Nat.lt_ge_cases (length (str_split line ", ")) 12) as [Hs|Hl].
  { rewrite (get_gpu_short line Hs) in Hg. discriminate. }
  destruct (twelve_fields _ Hl)
    as (v0 & v1 & v2 & v3 & v4 & v5 & v6 & v7 & v8 & v9 & v10 & v11 & rest & E).
  rewrite (get_gpu_fields line _ _ _ _ _ _ _ _ _ _ _ _ _ E), GPU_init_spec in Hg.
  destruct (is_zero (coerced v3)); [discriminate|].
  injection Hg as <-. cbn [GPU.mem_total GPU.mem_used GPU.mem_util] in *.
  rewrite T. split.
  - intros ->. rewrite fdiv_self. repeat split.
  - intros Z. destruct (coerced v4) as [s'| | |]; try discriminate Z.
    destruct s, s'; repeat split.
Qed.

Lemma mem_util_at_the_ends_witness :
  (GPU.mem_used gpu_full = GPU.mem_total gpu_full ->
   GPU.mem_util gpu_full = float_100 /\
   num_le (Float (GPU.mem_util gpu_full)) (Int 100) = true /\
   num_le (Float (GPU.mem_util gpu_full)) (Int 99) = false) /\
  (is_zero (GPU.mem_used gpu_full) = true ->
   is_zero (GPU.mem_util gpu_full) = true /\
   num_le (Float (GPU.mem_util gpu_full)) (Int 0) = true).
Proof.
  apply (mem_util_at_the_ends line_full gpu_full false
           8796093022208000%positive (-40)).
  - vm_compute. reflexivity.
  - vm_compute. reflexivity.
Defined.

Example mem_util_full_and_unused :
  (GPU.mem_util <$>
     get_gpu "0, GPU-abc, 5, 8000, 8000, 0, 450.1, Tesla, SN1, Enabled, Disabled, 60")
    = Ok float_100 /\
  (GPU.mem_util <$>
     get_gpu "0, GPU-abc, 5, 8000, 0, 8000, 450.1, Tesla, SN1, Enabled, Disabled, 60")
    = Ok (S754_zero false).
Proof. split; vm_compute; reflexivity. Qed.
